(** * fantasylife_tools: row schema compiler (table.py) and SCR container /
      text control-code decoder (scr.py)

    A shallow embedding of the two Python modules and the properties of
    their specification.  Python exceptions are values of [exn], a call
    that may raise returns a [result], [while True] runs on fuel. *)

From Stdlib Require Import ZArith List String Ascii Bool Lia.
From Stdlib Require Import DecimalString DecimalZ DecimalN.
From Stdlib.Strings Require Import Byte.
From Stdlib Require HexadecimalString.
Import ListNotations.
Open Scope Z_scope.

(** ** The Python substrate: exceptions, values, slices, [struct] *)

Module Py.

Inductive exn : Type :=
| KeyError (key : string)
| AttributeError (name : string)
| TypeError
| ValueError
| StructError                (* struct.error *)
| UnicodeDecodeError
| UnsupportedSCRError        (* scr.UnsupportedSCRError *)
| NotModelled.               (* behaviour of the interpreter left out of the model *)

Inductive result (A : Type) : Type :=
| Ok (a : A)
| Raise (e : exn).
Arguments Ok {A} a.
Arguments Raise {A} e.

Definition bind {A B} (r : result A) (k : A -> result B) : result B :=
  match r with
  | Ok a => k a
  | Raise e => Raise e
  end.

Notation "x <- r ;; k" := (bind r (fun x => k))
  (at level 61, r at next level, right associativity).

Definition is_ok {A} (r : result A) : bool :=
  match r with Ok _ => true | Raise _ => false end.

(** Python text: the list of its code points. *)
Definition text := list Z.

Definition ustr (s : string) : text :=
  map (fun c => Z.of_N (N_of_ascii c)) (list_ascii_of_string s).

(** The values a row holds: what [struct.unpack] yields (int, bytes, float),
    and text (enum labels, resolved strings).  A float32 is kept as the
    32 bits it was read from. *)
Inductive pyval : Type :=
| VInt (z : Z)
| VBytes (b : list byte)
| VStr (t : text)
| VFloat (bits : Z).

(** [dict[key]] on a dict with string keys. *)
Fixpoint lookup {A} (d : list (string * A)) (k : string) : option A :=
  match d with
  | [] => None
  | (k', v) :: d' => if String.eqb k' k then Some v else lookup d' k
  end.

Definition getitem {A} (d : list (string * A)) (k : string) : result A :=
  match lookup d k with
  | Some v => Ok v
  | None => Raise (KeyError k)
  end.

(** A key of a JSON object that may be absent. *)
Definition getkey {A} (key : string) (o : option A) : result A :=
  match o with
  | Some v => Ok v
  | None => Raise (KeyError key)
  end.

(** [format(z)] and ['{}'.format(z)] on an int. *)
Definition format_int (z : Z) : string := NilZero.string_of_int (Z.to_int z).

(** [seq[a:b]]: negative indices count from the end, both are clipped. *)
Definition clip (len i : Z) : Z :=
  if i <? 0 then Z.max 0 (i + len) else Z.min i len.

Definition slice {A} (l : list A) (a b : Z) : list A :=
  let len := Z.of_nat (List.length l) in
  let a' := clip len a in
  let b' := clip len b in
  firstn (Z.to_nat (b' - a')) (skipn (Z.to_nat a') l).

(** *** Bytes and integers *)

Definition byte_val (b : byte) : Z := Z.of_N (Byte.to_N b).

Definition byte_of_Z (z : Z) : byte :=
  match Byte.of_N (Z.to_N (z mod 256)) with
  | Some b => b
  | None => x00
  end.

Definition bytes_eqb (a b : list byte) : bool :=
  if list_eq_dec Byte.byte_eq_dec a b then true else false.

Fixpoint le_uint (bs : list byte) : Z :=
  match bs with
  | [] => 0
  | b :: bs' => byte_val b + 256 * le_uint bs'
  end.

Fixpoint le_bytes (n : nat) (z : Z) : list byte :=
  match n with
  | O => []
  | S n' => byte_of_Z z :: le_bytes n' (z / 256)
  end.

(** *** [struct.Struct] *)

Inductive byteorder : Type := LittleEndian | BigEndian.

Inductive field : Type :=
| FInt (signed : bool) (width : nat)
| FFloat
| FBytes (n : nat).

Record Struct : Type := mkStruct {
  format : string;
  order : byteorder;
  fields : list field
}.

Definition digit_of (c : ascii) : option (Decimal.uint -> Decimal.uint) :=
  match c with
  | "0"%char => Some Decimal.D0
  | "1"%char => Some Decimal.D1
  | "2"%char => Some Decimal.D2
  | "3"%char => Some Decimal.D3
  | "4"%char => Some Decimal.D4
  | "5"%char => Some Decimal.D5
  | "6"%char => Some Decimal.D6
  | "7"%char => Some Decimal.D7
  | "8"%char => Some Decimal.D8
  | "9"%char => Some Decimal.D9
  | _ => None
  end.

(** The format characters of the catalog in table.py, with their standard
    sizes. *)
Definition code_field (c : ascii) : option field :=
  match c with
  | "b"%char => Some (FInt true 1)
  | "B"%char => Some (FInt false 1)
  | "h"%char => Some (FInt true 2)
  | "H"%char => Some (FInt false 2)
  | "i"%char => Some (FInt true 4)
  | "I"%char => Some (FInt false 4)
  | "q"%char => Some (FInt true 8)
  | "Q"%char => Some (FInt false 8)
  | "f"%char => Some FFloat
  | _ => None
  end.

Definition field_size (f : field) : nat :=
  match f with
  | FInt _ w => w
  | FFloat => 4%nat
  | FBytes n => n
  end.

(** [struct.calcsize] of a one-character format. *)
Definition calcsize (c : ascii) : Z :=
  match code_field c with
  | Some f => Z.of_nat (field_size f)
  | None => 0
  end.

Definition count_of (acc : option (Decimal.uint -> Decimal.uint)) : nat :=
  match acc with
  | Some k => N.to_nat (N.of_uint (k Decimal.Nil))
  | None => 1%nat
  end.

Definition push_digit (acc : option (Decimal.uint -> Decimal.uint))
    (k : Decimal.uint -> Decimal.uint) : option (Decimal.uint -> Decimal.uint) :=
  match acc with
  | Some f => Some (fun d => f (k d))
  | None => Some k
  end.

(** The items of a format after its byte-order character: an optional
    decimal count, then a format character.  ["Ns"] is one bytes field of
    [N] bytes, a count before another character repeats it.  Characters of
    [struct] outside the catalog are left out of the model. *)
Fixpoint parse_items (s : string)
    (acc : option (Decimal.uint -> Decimal.uint)) : result (list field) :=
  match s with
  | EmptyString =>
      match acc with
      | None => Ok []
      | Some _ => Raise StructError
      end
  | String c rest =>
      match digit_of c with
      | Some k => parse_items rest (push_digit acc k)
      | None =>
          if Ascii.eqb c "s" then
            fs <- parse_items rest None ;;
            Ok (FBytes (count_of acc) :: fs)
          else
            match code_field c with
            | Some f =>
                fs <- parse_items rest None ;;
                Ok (repeat f (count_of acc) ++ fs)
            | None => Raise NotModelled
            end
      end
  end.

(** [Struct(fmt)].  The first character selects byte order and standard
    sizes; native mode (["@"], ["="], or no such character) depends on the
    platform and is left out of the model. *)
Definition Struct_new (fmt : string) : result Struct :=
  match fmt with
  | String c rest =>
      if Ascii.eqb c "<" then
        fs <- parse_items rest None ;; Ok (mkStruct fmt LittleEndian fs)
      else if Ascii.eqb c ">" || Ascii.eqb c "!" then
        fs <- parse_items rest None ;; Ok (mkStruct fmt BigEndian fs)
      else Raise NotModelled
  | EmptyString => Raise NotModelled
  end.

Definition size (st : Struct) : nat :=
  fold_right (fun f n => (field_size f + n)%nat) 0%nat (fields st).

Definition ordered (o : byteorder) (bs : list byte) : list byte :=
  match o with
  | LittleEndian => bs
  | BigEndian => rev bs
  end.

Definition decode_field (o : byteorder) (f : field) (bs : list byte) : pyval :=
  match f with
  | FInt signed w =>
      let u := le_uint (ordered o bs) in
      let bits := 8 * Z.of_nat w in
      VInt (if signed && (2 ^ (bits - 1) <=? u) then u - 2 ^ bits else u)
  | FFloat => VFloat (le_uint (ordered o bs))
  | FBytes _ => VBytes bs
  end.

Fixpoint unpack_fields (o : byteorder) (fs : list field) (data : list byte)
    : list pyval :=
  match fs with
  | [] => []
  | f :: fs' =>
      decode_field o f (firstn (field_size f) data)
        :: unpack_fields o fs' (skipn (field_size f) data)
  end.

Definition unpack (st : Struct) (data : list byte) : result (list pyval) :=
  if Nat.eqb (List.length data) (size st)
  then Ok (unpack_fields (order st) (fields st) data)
  else Raise StructError.

Definition encode_field (o : byteorder) (f : field) (v : pyval)
    : result (list byte) :=
  match f, v with
  | FInt signed w, VInt z =>
      let bits := 8 * Z.of_nat w in
      let lo := if signed then - 2 ^ (bits - 1) else 0 in
      let hi := if signed then 2 ^ (bits - 1) else 2 ^ bits in
      if (lo <=? z) && (z <? hi)
      then Ok (ordered o (le_bytes w (z mod 2 ^ bits)))
      else Raise StructError
  | FInt _ _, _ => Raise StructError
  | FFloat, VFloat bits => Ok (ordered o (le_bytes 4 bits))
  | FFloat, VInt _ => Raise NotModelled
  | FFloat, _ => Raise StructError
  | FBytes n, VBytes b => Ok (firstn n (b ++ repeat x00 n))
  | FBytes _, _ => Raise StructError
  end.

Fixpoint pack_fields (o : byteorder) (fs : list field) (vals : list pyval)
    : result (list byte) :=
  match fs, vals with
  | [], [] => Ok []
  | f :: fs', v :: vals' =>
      b <- encode_field o f v ;;
      bs <- pack_fields o fs' vals' ;;
      Ok (b ++ bs)
  | _, _ => Raise StructError
  end.

Definition pack (st : Struct) (vals : list pyval) : result (list byte) :=
  pack_fields (order st) (fields st) vals.

(** [unpack('<H', b)], [unpack('<I', b)]: exactly [n] bytes or struct.error. *)
Definition unpack_uint (n : nat) (bs : list byte) : result Z :=
  if Nat.eqb (List.length bs) n then Ok (le_uint bs) else Raise StructError.

End Py.

(** ** table.py *)

Module Table.
Import Py.

(** One entry of a bit column's ['columns'] list. *)
Record BitColumn : Type := mkBitColumn {
  b_name : string;
  b_offset : Z;
  b_length : Z
}.

(** One column descriptor, a JSON object.  Every descriptor has a ['type'];
    the keys that the synthesized gap entry lacks, and the kind-specific
    ones, may be absent. *)
Record Column : Type := mkColumn {
  c_type : string;
  c_name : option string;
  c_offset : option Z;
  c_columns : option (list BitColumn);
  c_enum : option (list (string * text))
}.

(** The [tableinfo] argument of [newrowclass]. *)
Record TableInfo : Type := mkTableInfo {
  ti_endianess : option string;
  ti_columns : list Column;
  ti_row_length : Z
}.

(** [OrderedDict([('type', 'gap')])] *)
Definition gap : Column := mkColumn "gap" None None None None.

(** The class that [newrowclass] returns: the namedtuple's field names and
    the two attributes that [feed] and [tobytes] read. *)
Record RowClass : Type := mkRowClass {
  field_names : list string;
  columns : list Column;
  struct_obj : Struct
}.

(** An instance of the class. *)
Record Row : Type := mkRow {
  row_class : RowClass;
  row_data : list pyval
}.

Definition startswith (s p : string) : bool := String.prefix p s.

Definition ty (name : string) (structchr : ascii) : string * ascii :=
  (name, structchr).

Definition types : list (string * ascii) :=
  [ ty "s8" "b";
    ty "u8" "B";
    ty "s16" "h";
    ty "u16" "H";
    ty "s32" "i";
    ty "u32" "I";
    ty "s64" "q";
    ty "u64" "Q";
    ty "f32" "f";
    ty "str" "I";
    ty "ptr" "I";
    ty "bit8" "B";
    ty "bit16" "H";
    ty "bit32" "I";
    ty "bit64" "Q";
    ty "enum8" "B";
    ty "enum16" "H" ].

(** *** namedtuple *)

Definition is_digit (c : ascii) : bool :=
  let n := N_of_ascii c in ((48 <=? n) && (n <=? 57))%N.

Definition is_alpha_ (c : ascii) : bool :=
  let n := N_of_ascii c in
  (((65 <=? n) && (n <=? 90)) || ((97 <=? n) && (n <=? 122)) || (n =? 95))%N.

Fixpoint all_chars (p : ascii -> bool) (s : string) : bool :=
  match s with
  | EmptyString => true
  | String c s' => p c && all_chars p s'
  end.

(** [str.isidentifier] on ASCII names; names with other characters are
    taken as rejected. *)
Definition isidentifier (s : string) : bool :=
  match s with
  | EmptyString => false
  | String c s' =>
      is_alpha_ c && all_chars (fun c => is_alpha_ c || is_digit c) s'
  end.

Definition kwlist : list string :=
  [ "False"; "None"; "True"; "and"; "as"; "assert"; "async"; "await";
    "break"; "class"; "continue"; "def"; "del"; "elif"; "else"; "except";
    "finally"; "for"; "from"; "global"; "if"; "import"; "in"; "is";
    "lambda"; "nonlocal"; "not"; "or"; "pass"; "raise"; "return"; "try";
    "while"; "with"; "yield" ]%string.

Definition mem (s : string) (l : list string) : bool :=
  existsb (String.eqb s) l.

Fixpoint no_dup (l : list string) : bool :=
  match l with
  | [] => true
  | x :: l' => negb (mem x l') && no_dup l'
  end.

Definition valid_field_name (s : string) : bool :=
  isidentifier s && negb (mem s kwlist) && negb (startswith s "_").

(** [namedtuple('Row', names)]: ValueError on a name that is no identifier,
    is a keyword, starts with an underscore, or occurs twice. *)
Definition namedtuple (names : list string) : result (list string) :=
  if forallb valid_field_name names && no_dup names
  then Ok names
  else Raise ValueError.

(** [cls._make(data)] *)
Definition _make (cls : RowClass) (data : list pyval) : result Row :=
  if Nat.eqb (List.length data) (List.length (field_names cls))
  then Ok (mkRow cls data)
  else Raise TypeError.

(** *** feed *)

Definition format_val (v : pyval) : result string :=
  match v with
  | VInt z => Ok (format_int z)
  | _ => Raise NotModelled
  end.

(** [(element >> offset) & ((1 << length) - 1)] *)
Definition bit_extract (element : pyval) (bc : BitColumn) : result pyval :=
  match element with
  | VInt e =>
      if (b_offset bc <? 0) || (b_length bc <? 0) then Raise ValueError
      else Ok (VInt (Z.land (Z.shiftr e (b_offset bc))
                            (Z.shiftl 1 (b_length bc) - 1)))
  | _ => Raise TypeError
  end.

Fixpoint mapM {A B} (f : A -> result B) (l : list A) : result (list B) :=
  match l with
  | [] => Ok []
  | a :: l' => b <- f a ;; bs <- mapM f l' ;; Ok (b :: bs)
  end.

Definition hook_t : Type := option (pyval -> result pyval).

(** The body of the loop of [feed]: what one column appends to [data]. *)
Definition feed_column (get_string_hook : hook_t) (info : Column)
    (element : pyval) : result (list pyval) :=
  match (if String.eqb (c_type info) "str" then get_string_hook else None) with
  | Some hook => v <- hook element ;; Ok [v]
  | None =>
      if startswith (c_type info) "bit" then
        bitcolumns <- getkey "columns" (c_columns info) ;;
        subs <- mapM (bit_extract element) bitcolumns ;;
        Ok (element :: subs)
      else if startswith (c_type info) "enum" then
        enum <- getkey "enum" (c_enum info) ;;
        key <- format_val element ;;
        label <- getitem enum key ;;
        Ok [VStr label]
      else Ok [element]
  end.

Fixpoint feed_loop (get_string_hook : hook_t)
    (pairs : list (Column * pyval)) : result (list pyval) :=
  match pairs with
  | [] => Ok []
  | (info, element) :: rest =>
      d <- feed_column get_string_hook info element ;;
      ds <- feed_loop get_string_hook rest ;;
      Ok (d ++ ds)
  end.

Definition feed (cls : RowClass) (bytes_obj : list byte)
    (get_string_hook : hook_t) : result Row :=
  rawdata <- unpack (struct_obj cls) bytes_obj ;;
  data <- feed_loop get_string_hook (combine (columns cls) rawdata) ;;
  _make cls data.

(** *** tobytes *)

Fixpoint index_of (name : string) (names : list string) : option nat :=
  match names with
  | [] => None
  | n :: names' =>
      if String.eqb n name then Some O
      else option_map S (index_of name names')
  end.

(** [getattr(self, name)] for the name of a field. *)
Definition getattr (self : Row) (name : string) : result pyval :=
  match index_of name (field_names (row_class self)) with
  | Some i =>
      match nth_error (row_data self) i with
      | Some v => Ok v
      | None => Raise (AttributeError name)
      end
  | None => Raise (AttributeError name)
  end.

(** The expression [self.__getattr__]: the lookup of the attribute named
    [__getattr__] on the instance.  The class is a namedtuple, to which
    [newrowclass] adds [columns], [struct_obj], [feed], [totext] and
    [tobytes]; neither it nor [tuple] nor [object] defines [__getattr__],
    and no field can carry the name ([namedtuple] refuses a leading
    underscore).  The lookup raises AttributeError. *)
Definition dunder_getattr (self : Row) : result (string -> result pyval) :=
  Raise (AttributeError "__getattr__").

(** The loop over the bit columns,
      [bitdata |= ((1 << length) - 1) << offset]
      [bitdata &= getter(name) << offset]. *)
Fixpoint pack_bits (getter : result (string -> result pyval))
    (bitdata : pyval) (bitcolumns : list BitColumn) : result pyval :=
  match bitcolumns with
  | [] => Ok bitdata
  | bc :: rest =>
      if (b_length bc <? 0) || (b_offset bc <? 0) then Raise ValueError
      else
        match bitdata with
        | VInt b =>
            let b1 :=
              Z.lor b (Z.shiftl (Z.shiftl 1 (b_length bc) - 1) (b_offset bc)) in
            g <- getter ;;
            v <- g (b_name bc) ;;
            match v with
            | VInt z =>
                pack_bits getter (VInt (Z.land b1 (Z.shiftl z (b_offset bc)))) rest
            | _ => Raise TypeError
            end
        | _ => Raise TypeError
        end
  end.

(** The body of the loop of [tobytes]: the value one column appends to
    [rowdata].  [getter] is what [self.__getattr__] evaluates to. *)
Definition tobytes_column (getter : result (string -> result pyval))
    (column : Column) : result pyval :=
  if startswith (c_type column) "bit" then
    g <- getter ;;
    name <- getkey "name" (c_name column) ;;
    bitdata <- g name ;;
    bitcolumns <- getkey "columns" (c_columns column) ;;
    pack_bits getter bitdata bitcolumns
  else
    g <- getter ;;
    name <- getkey "name" (c_name column) ;;
    g name.

(** [tobytes] with [self.__getattr__] evaluating to [getter]. *)
Definition tobytes_with (getter : result (string -> result pyval))
    (self : Row) : result (list byte) :=
  rowdata <- mapM (tobytes_column getter) (columns (row_class self)) ;;
  pack (struct_obj (row_class self)) rowdata.

Definition tobytes (self : Row) : result (list byte) :=
  tobytes_with (dunder_getattr self) self.

(** *** newrowclass *)

(** The variables of the loop. *)
Record loopstate : Type := mkLoop {
  l_columns : list string;
  l_newtableinfo : list Column;
  l_gapstart : Z;
  l_structstr : string
}.

Definition add_gap (st : loopstate) (upto : Z) : loopstate :=
  mkLoop (l_columns st ++ [("c" ++ format_int (l_gapstart st))%string])
         (l_newtableinfo st ++ [gap])
         (l_gapstart st)
         (l_structstr st ++ format_int (upto - l_gapstart st) ++ "s")%string.

Definition compile_column (st : loopstate) (column : Column)
    : result loopstate :=
  offset <- getkey "offset" (c_offset column) ;;
  let st1 := if offset >? l_gapstart st then add_gap st offset else st in
  name <- getkey "name" (c_name column) ;;
  names <-
    (if startswith (c_type column) "bit" then
       bitcolumns <- getkey "columns" (c_columns column) ;;
       Ok (name :: map b_name bitcolumns)
     else Ok [name]) ;;
  structchr <- getitem types (c_type column) ;;
  Ok (mkLoop (l_columns st1 ++ names)
             (l_newtableinfo st1 ++ [column])
             (offset + calcsize structchr)
             (l_structstr st1 ++ String structchr EmptyString)).

Fixpoint compile_columns (st : loopstate) (cols : list Column)
    : result loopstate :=
  match cols with
  | [] => Ok st
  | column :: rest =>
      st' <- compile_column st column ;;
      compile_columns st' rest
  end.

(** The part of [newrowclass] before [namedtuple]: the loop over the
    columns and the trailing gap. *)
Definition compile_layout (tableinfo : TableInfo) : result loopstate :=
  let structstr :=
    match ti_endianess tableinfo with
    | Some s => s
    | None => "<"%string
    end in
  st <- compile_columns (mkLoop [] [] 0 structstr) (ti_columns tableinfo) ;;
  Ok (if l_gapstart st <? ti_row_length tableinfo
      then add_gap st (ti_row_length tableinfo)
      else st).

Definition newrowclass (tableinfo : TableInfo) : result RowClass :=
  st <- compile_layout tableinfo ;;
  names <- namedtuple (l_columns st) ;;
  s <- Struct_new (l_structstr st) ;;
  Ok (mkRowClass names (l_newtableinfo st) s).

(** *** The compiled layout as byte ranges *)



Definition c_off (c : Column) : Z :=
  match c_offset c with Some o => o | None => 0 end.

Definition c_size (c : Column) : Z :=
  match lookup types (c_type c) with
  | Some structchr => calcsize structchr
  | None => 0
  end.

Definition c_end (c : Column) : Z := c_off c + c_size c.

Definition is_some {A} (o : option A) : bool :=
  match o with Some _ => true | None => false end.

(** A descriptor [newrowclass] can read: it has a name, an offset, a kind
    of the catalog, and its sub-field list if the kind is a bit field. *)
Definition keyed (c : Column) : bool :=
  is_some (c_name c) && is_some (c_offset c)
  && is_some (lookup types (c_type c))
  && (if startswith (c_type c) "bit" then is_some (c_columns c) else true).


Definition disjoint (c1 c2 : Column) : bool :=
  (c_end c1 <=? c_off c2) || (c_end c2 <=? c_off c1).

Fixpoint non_overlapping (cols : list Column) : bool :=
  match cols with
  | [] => true
  | c :: rest => forallb (disjoint c) rest && non_overlapping rest
  end.

Definition in_bounds (L : Z) (c : Column) : bool :=
  (0 <=? c_off c) && (c_end c <=? L).

(** The byte orders of the model: ['endianess'] absent, or one of the three
    characters that select standard sizes. *)
Definition byte_order_given (tableinfo : TableInfo) : bool :=
  match ti_endianess tableinfo with
  | None => true
  | Some s => String.eqb s "<" || String.eqb s ">" || String.eqb s "!"
  end.


(** The format [sfx] is read as the fields [fs], whatever follows it. *)
Definition reads (sfx : string) (fs : list field) : Prop :=
  forall rest,
    parse_items (sfx ++ rest) None =
    (fs' <- parse_items rest None ;; Ok (fs ++ fs')).



(** How many values a column contributes to the row, and where the values
    of the column at index [i] begin in it. *)
Definition data_width (info : Column) : nat :=
  if startswith (c_type info) "bit"
  then S (match c_columns info with Some l => List.length l | None => O end)
  else 1%nat.

Definition data_index (cols : list Column) (i : nat) : nat :=
  fold_right (fun c n => (data_width c + n)%nat) 0%nat (firstn i cols).

(** The names a column gives to the namedtuple: its own, then those of its
    sub-fields if its kind is a bit field. *)
Definition column_names (c : Column) : list string :=
  match c_name c with
  | Some name =>
      if startswith (c_type c) "bit"
      then name :: map b_name (match c_columns c with Some l => l | None => [] end)
      else [name]
  | None => []
  end.




End Table.

(** ** scr.py *)

Module Scr.
Import Py.

Record SCR : Type := mkSCR {
  raw : list byte;
  row_count : Z;
  row_length : Z;
  table_offset : Z
}.

Definition buttons : list (Z * string) :=
  [ (0, "A"); (1, "B"); (2, "X"); (3, "D-Pad"); (4, "Circle Pad");
    (5, "L"); (6, "R"); (7, "L"); (8, "R"); (9, "Y"); (10, "Y") ]%string.

Fixpoint lookup_button (d : list (Z * string)) (k : Z) : option string :=
  match d with
  | [] => None
  | (k', v) :: d' => if k' =? k then Some v else lookup_button d' k
  end.

(** [SCR.__init__] *)
Definition __init__ (raw : list byte) : result SCR :=
  table_info_offset <- unpack_uint 4 (slice raw 20 24) ;;
  let d := slice raw table_info_offset (table_info_offset + 12) in
  if Nat.eqb (List.length d) 12
  then Ok (mkSCR raw (le_uint (firstn 4 d))
                     (le_uint (firstn 4 (skipn 4 d)))
                     (le_uint (firstn 4 (skipn 8 d))))
  else Raise StructError.

(** [SCR.iterrowbytes]: the windows it yields, in order. *)
Definition iterrowbytes (self : SCR) : list (list byte) :=
  map (fun row_index : nat =>
         let offset := table_offset self + Z.of_nat row_index * row_length self in
         slice (raw self) offset (offset + row_length self))
      (seq 0 (Z.to_nat (row_count self))).

Definition magic : list byte := [x13; x80; x03; x1d].

(** [load], on the contents of the file at [path]: [read(4)] at 0, then at
    0x10; [read()] from the position of the match. *)
Definition load (file : list byte) : result SCR :=
  if bytes_eqb (firstn 4 file) magic then __init__ file
  else if bytes_eqb (firstn 4 (skipn 16 file)) magic
       then __init__ (skipn 16 file)
       else Raise UnsupportedSCRError.

(** *** [bytes.decode('utf-16le')] *)

Fixpoint code_units (bs : list byte) : result (list Z) :=
  match bs with
  | [] => Ok []
  | [_] => Raise UnicodeDecodeError
  | a :: b :: rest =>
      us <- code_units rest ;;
      Ok (byte_val a + 256 * byte_val b :: us)
  end.

Definition is_high (u : Z) : bool := (55296 <=? u) && (u <? 56320).
Definition is_low (u : Z) : bool := (56320 <=? u) && (u <? 57344).

Fixpoint code_points (us : list Z) : result text :=
  match us with
  | [] => Ok []
  | u :: rest =>
      if is_high u then
        match rest with
        | l :: rest' =>
            if is_low l then
              t <- code_points rest' ;;
              Ok (65536 + (u - 55296) * 1024 + (l - 56320) :: t)
            else Raise UnicodeDecodeError
        | [] => Raise UnicodeDecodeError
        end
      else if is_low u then Raise UnicodeDecodeError
      else t <- code_points rest ;; Ok (u :: t)
  end.

Definition decode (bs : list byte) : result text :=
  us <- code_units bs ;; code_points us.

(** *** getstring *)

Definition sentinel (b : byte) : list byte := [b; xff; xff; xff].

(** The inner [while] of the choice branch; it runs at most once per two
    bytes of [byte_count], which is what [n] counts. *)
Fixpoint choice_end (raw : list byte) (limit : Z) (n : nat)
    (choice_end_pos : Z) : Z :=
  match n with
  | O => choice_end_pos
  | S n' =>
      if (choice_end_pos <? limit)
         && negb (bytes_eqb (slice raw choice_end_pos (choice_end_pos + 2))
                            [x00; x00])
      then choice_end raw limit n' (choice_end_pos + 2)
      else choice_end_pos
  end.

(** The [for choice_index in range(choice_count)] loop; [indices] are the
    values of [choice_index] still to come. *)
Fixpoint choices (raw : list byte) (choice_count : Z) (indices : list nat)
    (pos : Z) (strings : list text) : result (Z * list text) :=
  match indices with
  | [] => Ok (pos, strings)
  | choice_index :: rest =>
      byte_count <- unpack_uint 2 (slice raw (pos + 4) (pos + 6)) ;;
      let choice_end_pos :=
        choice_end raw (pos + 8 + byte_count)
                   (Z.to_nat ((byte_count + 1) / 2)) (pos + 8) in
      s <- decode (slice raw (pos + 8) choice_end_pos) ;;
      let strings1 := strings ++ [s] in
      let strings2 :=
        if Z.of_nat choice_index =? choice_count - 1 then strings1
        else strings1 ++ [ustr " / "] in
      choices raw choice_count rest (pos + 8 + byte_count) strings2
  end.

(** One turn of the [while True] loop: [Ok None] is [break]. *)
Definition step (raw : list byte) (pos : Z) (strings : list text)
    : result (option (Z * list text)) :=
  let head := slice raw pos (pos + 4) in
  if bytes_eqb head (sentinel xe9) then          (* Branch *)
    byte_count <- unpack_uint 2 (slice raw (pos + 22) (pos + 24)) ;;
    let pos := pos + 24 in
    s1 <- decode (slice raw pos (pos + byte_count - 2)) ;;
    let strings := strings ++ [s1; ustr " / "] in
    let pos := pos + byte_count in
    let pos := if bytes_eqb (slice raw pos (pos + 2)) [xff; xff]
               then pos + 2 else pos in
    byte_count <- unpack_uint 2 (slice raw (pos + 2) (pos + 4)) ;;
    s2 <- decode (slice raw (pos + 4) (pos + 2 + byte_count)) ;;
    Ok (Some (pos + 4 + byte_count, strings ++ [s2]))
  else if bytes_eqb head (sentinel xf1) then     (* Pause *)
    Ok (Some (pos + 8, strings ++ [ustr "\n"]))
  else if bytes_eqb head (sentinel xf4) then     (* Furigana *)
    byte_count <- unpack_uint 2 (slice raw (pos + 10) (pos + 12)) ;;
    Ok (Some (pos + 12 + byte_count, strings))
  else if bytes_eqb head (sentinel xf5) then     (* Choice *)
    choice_count <- unpack_uint 4 (slice raw (pos + 12) (pos + 16)) ;;
    let pos := pos + (16 + 4 * choice_count) in
    let strings :=
      strings ++ [if (0 <? List.length strings)%nat then ustr " (" else ustr "("] in
    r <- choices raw choice_count (seq 0 (Z.to_nat choice_count)) pos strings ;;
    Ok (Some (fst r, snd r ++ [ustr ")"]))
  else if bytes_eqb head (sentinel xf6) then     (* Variables *)
    let operands := slice raw (pos + 4) (pos + 12) in
    if Nat.eqb (List.length operands) 8 then
      let a := le_uint (firstn 4 operands) in
      let b := le_uint (skipn 4 operands) in
      Ok (Some (pos + 12,
                strings ++ [ustr ("(" ++ format_int a ++ ", "
                                      ++ format_int b ++ ")")]))
    else Raise StructError
  else if bytes_eqb head (sentinel xf7) then     (* Text color *)
    Ok (Some (pos + 12, strings))
  else if bytes_eqb head (sentinel xf9) then     (* Buttons *)
    button <- unpack_uint 4 (slice raw (pos + 8) (pos + 12)) ;;
    match lookup_button buttons button with
    | Some label => Ok (Some (pos + 12, strings ++ [ustr label]))
    | None => Ok (Some (pos + 12, strings ++ [ustr "?"]))
    end
  else if bytes_eqb head (sentinel xf0) then     (* Line break *)
    Ok (Some (pos + 8, strings ++ [ustr "\n"]))
  else if bytes_eqb head (sentinel xf1) then
    Ok (Some (pos + 8, strings))
  else if bytes_eqb (slice raw pos (pos + 2)) [xff; xff] then
    Ok (Some (pos + 2, strings))
  else if negb (bytes_eqb (slice raw pos (pos + 2)) [x00; x00]) then
    s <- decode (slice raw pos (pos + 2)) ;;
    Ok (Some (pos + 2, strings ++ [s]))
  else Ok None.

(** What a run of [getstring] comes to: it returns the joined strings, it
    raises, or the loop is still running when the fuel is spent. *)
Inductive outcome : Type :=
| Returned (s : text)
| Raised (e : exn)
| Running.

Fixpoint getstring_loop (fuel : nat) (raw : list byte) (pos : Z)
    (strings : list text) : outcome :=
  match fuel with
  | O => Running
  | S fuel' =>
      match step raw pos strings with
      | Raise e => Raised e
      | Ok None => Returned (List.concat strings)
      | Ok (Some (pos', strings')) => getstring_loop fuel' raw pos' strings'
      end
  end.

Definition getstring (fuel : nat) (self : SCR) (offset : Z) : outcome :=
  getstring_loop fuel (raw self) offset [].

(** The position and the strings after [n] turns of the loop, when none of
    them left the loop or raised. *)
Fixpoint scan (n : nat) (raw : list byte) (pos : Z) (strings : list text)
    : option (Z * list text) :=
  match n with
  | O => Some (pos, strings)
  | S n' =>
      match step raw pos strings with
      | Ok (Some (pos', strings')) => scan n' raw pos' strings'
      | _ => None
      end
  end.

(** *** tolines *)

(** ['\t'.join(row)], on any separator. *)
Fixpoint join (sep : text) (words : list text) : text :=
  match words with
  | [] => []
  | [w] => w
  | w :: ws => w ++ sep ++ join sep ws
  end.

Definition tab : text := [9].

Definition upper (c : ascii) : ascii :=
  let n := N_of_ascii c in
  if ((97 <=? n) && (n <=? 122))%N then ascii_of_N (n - 32) else c.

Fixpoint map_chars (f : ascii -> ascii) (s : string) : string :=
  match s with
  | EmptyString => EmptyString
  | String c s' => String (f c) (map_chars f s')
  end.

(** [format(z, '0{width}X')] for [z >= 0]: upper-case hexadecimal digits,
    filled up with zeros on the left to [width] characters. *)
Definition format_hex (width : nat) (z : Z) : string :=
  let digits :=
    map_chars upper
      (HexadecimalString.NilZero.string_of_uint (N.to_hex_uint (Z.to_N z))) in
  (string_of_list_ascii (repeat "0"%char (width - String.length digits))
   ++ digits)%string.

(** What [tolines] comes to: the lines, an exception, or a [getstring] that
    is still running when the fuel is spent. *)
Inductive dump (A : Type) : Type :=
| Dumped (a : A)
| DumpRaised (e : exn)
| DumpRunning.
Arguments Dumped {A} a.
Arguments DumpRaised {A} e.
Arguments DumpRunning {A}.

(** The loop over [string_offsets] for one row. *)
Fixpoint row_strings (fuel : nat) (self : SCR) (local_offset : Z)
    (string_offsets : list Z) : dump (list text) :=
  match string_offsets with
  | [] => Dumped []
  | offset :: rest =>
      match unpack_uint 4 (slice (raw self) (local_offset + offset)
                                 (local_offset + offset + 4)) with
      | Raise e => DumpRaised e
      | Ok string_offset =>
          match getstring fuel self string_offset with
          | Returned s =>
              match row_strings fuel self local_offset rest with
              | Dumped ss => Dumped (s :: ss)
              | other => other
              end
          | Raised e => DumpRaised e
          | Running => DumpRunning
          end
      end
  end.

(** The dump of the bytes of one row: two hexadecimal digits per byte, or
    the numbers [struct] unpacks from them. *)
Definition row_words (struct : option string) (rowbytes : list byte)
    : result (list text) :=
  match struct with
  | None => Ok (map (fun b => ustr (format_hex 2 (byte_val b))) rowbytes)
  | Some fmt =>
      st <- Struct_new fmt ;;
      unpacked <- unpack st rowbytes ;;
      Table.mapM (fun num => s <- Table.format_val num ;; Ok (ustr s)) unpacked
  end.

Definition toline (fuel : nat) (self : SCR) (struct : option string)
    (string_offsets : list Z) (column_count table_offset : Z)
    (row_index : nat) : dump text :=
  let local_offset := table_offset + Z.of_nat row_index * column_count in
  let row := [ustr ("0x" ++ format_hex 8 local_offset);
              ustr ("0x" ++ format_hex 4 (Z.of_nat row_index))] in
  match row_strings fuel self local_offset string_offsets with
  | Dumped strings =>
      match row_words struct (slice (raw self) local_offset
                                    (local_offset + column_count)) with
      | Ok words => Dumped (join tab (row ++ strings ++ words))
      | Raise e => DumpRaised e
      end
  | DumpRaised e => DumpRaised e
  | DumpRunning => DumpRunning
  end.

Fixpoint tolines_loop (fuel : nat) (self : SCR) (struct : option string)
    (string_offsets : list Z) (column_count table_offset : Z)
    (indices : list nat) : dump (list text) :=
  match indices with
  | [] => Dumped []
  | row_index :: rest =>
      match toline fuel self struct string_offsets column_count
                   table_offset row_index with
      | Dumped line =>
          match tolines_loop fuel self struct string_offsets column_count
                             table_offset rest with
          | Dumped table => Dumped (line :: table)
          | other => other
          end
      | DumpRaised e => DumpRaised e
      | DumpRunning => DumpRunning
      end
  end.

(** [SCR.tolines]; it reads the descriptor from the buffer again. *)
Definition tolines (fuel : nat) (self : SCR) (struct : option string)
    (string_offsets : list Z) : dump (list text) :=
  match unpack_uint 4 (slice (raw self) 20 24) with
  | Raise e => DumpRaised e
  | Ok table_info_offset =>
      let d := slice (raw self) table_info_offset (table_info_offset + 12) in
      if Nat.eqb (List.length d) 12 then
        tolines_loop fuel self struct string_offsets
                     (le_uint (firstn 4 (skipn 4 d)))
                     (le_uint (firstn 4 (skipn 8 d)))
                     (seq 0 (Z.to_nat (le_uint (firstn 4 d))))
      else DumpRaised StructError
  end.

(** *** Statements about text *)

(** The bytes of code units in UTF-16LE. *)
Definition utf16le (units : list Z) : list byte :=
  flat_map (fun u => [byte_of_Z u; byte_of_Z (u / 256)]) units.

(** A code unit that [getstring] takes as a character of its own: not
    null, no surrogate, and with a high byte other than 0xFF, so that it
    neither is the filler nor lies inside a sentinel. *)
Definition plain_unit (u : Z) : bool :=
  (0 <? u) && (u <? 65280) && negb (is_high u || is_low u).

End Scr.

(** ** arc.py *)

Module Arc.
Import Py.

Inductive error : Type :=
| InvalidFileError (msg : string)
| IndexError
| Error (e : exn).

Inductive res (A : Type) : Type :=
| Got (a : A)
| Fail (e : error).
Arguments Got {A} a.
Arguments Fail {A} e.

Record FileEntry : Type := mkFileEntry {
  path : string;
  unknown1 : Z;
  unknown2 : Z;
  unknown3 : Z;
  file_length : Z;
  path_offset : Z;
  file_offset : Z
}.

Record Arc : Type := mkArc {
  file : list byte;
  data_length : Z;
  arc_unknown1 : Z;
  arc_unknown2 : Z;
  file_entries : list FileEntry
}.

Definition MAGIC : list byte := [x52; x20; x0d; x43].

(** [file.seek(offset)] then [file.read(n)], for an offset and a length
    that were unpacked as unsigned numbers. *)
Definition read_at (file : list byte) (offset n : Z) : list byte :=
  firstn (Z.to_nat n) (skipn (Z.to_nat offset) file).

(** [bytes.decode('ascii')] *)
Fixpoint decode_ascii (bs : list byte) : result string :=
  match bs with
  | [] => Ok EmptyString
  | b :: bs' =>
      if byte_val b <? 128
      then s <- decode_ascii bs' ;; Ok (String (ascii_of_byte b) s)
      else Raise UnicodeDecodeError
  end.

(** The body of the loop over the entry table: [unpack('<BBH4I', ...)] of
    the 20 bytes at [offset], then the path. *)
Definition read_entry (file raw_file_entries : list byte) (offset : Z)
    : result FileEntry :=
  let chunk := slice raw_file_entries offset (offset + 20) in
  if Nat.eqb (List.length chunk) 20 then
    let u1 := le_uint (firstn 1 chunk) in
    let path_length := le_uint (firstn 1 (skipn 1 chunk)) in
    let u2 := le_uint (firstn 2 (skipn 2 chunk)) in
    let u3 := le_uint (firstn 4 (skipn 4 chunk)) in
    let file_length := le_uint (firstn 4 (skipn 8 chunk)) in
    let path_offset := le_uint (firstn 4 (skipn 12 chunk)) in
    let file_offset := le_uint (firstn 4 (skipn 16 chunk)) in
    path <- decode_ascii (read_at file path_offset path_length) ;;
    Ok (mkFileEntry path u1 u2 u3 file_length path_offset file_offset)
  else Raise StructError.

(** [range(0, n, 0x14)] *)
Definition entry_offsets (n : nat) : list Z :=
  map (fun k => 20 * Z.of_nat k) (seq 0 ((n + 19) / 20)).

(** [Arc.__init__], on the contents of the file at [path]. *)
Definition __init__ (file : list byte) : res Arc :=
  if negb (bytes_eqb (firstn 4 file) MAGIC)
  then Fail (InvalidFileError "Invalid file.")
  else if (List.length file <? 20)%nat
  then Fail (InvalidFileError "File is too small.")
  else
    let header := firstn 16 (skipn 4 file) in
    let data_length := le_uint (firstn 4 header) in
    let unknown1 := le_uint (firstn 4 (skipn 4 header)) in
    let unknown2 := le_uint (firstn 4 (skipn 8 header)) in
    let file_entries_offset := le_uint (firstn 4 (skipn 12 header)) in
    if negb (20 + data_length =? Z.of_nat (List.length file))
    then Fail (InvalidFileError "Invalid file.")
    else
      let raw_file_entries := skipn (Z.to_nat file_entries_offset) file in
      match Table.mapM (read_entry file raw_file_entries)
                       (entry_offsets (List.length raw_file_entries)) with
      | Ok entries => Got (mkArc file data_length unknown1 unknown2 entries)
      | Raise e => Fail (Error e)
      end.

Definition file_count (self : Arc) : nat := List.length (file_entries self).

(** [self.file_entries[file_index]] *)
Definition entry_at (self : Arc) (file_index : Z) : res FileEntry :=
  let n := Z.of_nat (file_count self) in
  let i := if file_index <? 0 then file_index + n else file_index in
  if (i <? 0) || (n <=? i) then Fail IndexError
  else match nth_error (file_entries self) (Z.to_nat i) with
       | Some entry => Got entry
       | None => Fail IndexError
       end.

Definition getdata (self : Arc) (file_index : Z) : res (list byte) :=
  match entry_at self file_index with
  | Got entry => Got (read_at (file self) (file_offset entry) (file_length entry))
  | Fail e => Fail e
  end.

Definition getfilepath (self : Arc) (file_index : Z) : res string :=
  match entry_at self file_index with
  | Got entry => Got (path entry)
  | Fail e => Fail e
  end.

End Arc.

(** ** Concrete schemas and buffers *)

Import Py Table Scr.

Module Inputs.
#[local] Open Scope string_scope.

Definition plain (type name : string) (offset : Z) : Column :=
  mkColumn type (Some name) (Some offset) None None.

(** One byte of gap, then an unsigned byte. *)
Definition ti_gap_u8 : TableInfo :=
  mkTableInfo None [plain "u8" "a" 1] 2.

(** A bit8 column split into two nibbles. *)
Definition flags : Column :=
  mkColumn "bit8" (Some "flags") (Some 0)
           (Some [mkBitColumn "lo" 0 4; mkBitColumn "hi" 4 4]) None.

Definition ti_flags : TableInfo := mkTableInfo None [flags] 1.

(** Bytes 2 and 3 are claimed by both columns. *)
Definition ti_overlap : TableInfo :=
  mkTableInfo None [plain "u32" "a" 0; plain "u16" "b" 2] 4.

(** A four-byte column at offset 2 of a four-byte row. *)
Definition ti_past_end : TableInfo :=
  mkTableInfo None [plain "u32" "a" 2] 4.

(** A sub-field over bits 6..9 of an eight-bit parent. *)
Definition ti_wide_bits : TableInfo :=
  mkTableInfo None
    [mkColumn "bit8" (Some "flags") (Some 0)
              (Some [mkBitColumn "x" 6 4]) None] 1.

Definition kind : Column :=
  mkColumn "enum8" (Some "kind") (Some 0) None
           (Some [("0", ustr "None"); ("1", ustr "Sword")]).

Definition ti_enum : TableInfo := mkTableInfo None [kind] 1.

(** What [newrowclass] makes of it. *)
Definition cls_enum : RowClass :=
  mkRowClass ["kind"] [kind] (mkStruct "<B" LittleEndian [FInt false 1]).


Definition ti_two_fields : TableInfo :=
  mkTableInfo None [plain "u8" "a" 1; plain "u16" "b" 4] 8.

Definition cls_two_fields : RowClass :=
  mkRowClass ["c0"; "a"; "c2"; "b"; "c6"]
             [gap; plain "u8" "a" 1; gap; plain "u16" "b" 4; gap]
             (mkStruct "<1sB2sH2s" LittleEndian
                [FBytes 1; FInt false 1; FBytes 2; FInt false 2; FBytes 2]).


Definition ti_name_ref : TableInfo :=
  mkTableInfo None [flags; plain "str" "title" 1] 5.

Definition cls_name_ref : RowClass :=
  mkRowClass ["flags"; "lo"; "hi"; "title"] [flags; plain "str" "title" 1]
             (mkStruct "<BI" LittleEndian [FInt false 1; FInt false 4]).

(** An SCR header: magic, filler up to 0x14, descriptor offset 0x18, then
    the descriptor (row_count 2, row_length 4, table_offset 0x24). *)
Definition header : list byte :=
  [x13; x80; x03; x1d] ++ repeat x00 16 ++ [x18; x00; x00; x00]
  ++ [x02; x00; x00; x00; x04; x00; x00; x00; x24; x00; x00; x00].

(** The table needs 8 bytes; 6 follow the header. *)
Definition short_table : list byte :=
  header ++ [x01; x02; x03; x04; x05; x06].

Definition full_table : list byte :=
  header ++ [x01; x02; x03; x04; x05; x06; x07; x08].

(** The text "A" at offset 0x24, and the end of the buffer after it. *)
Definition unterminated : list byte := header ++ [x41; x00].

Definition terminated : list byte :=
  header ++ [x41; x00; x42; x00; x00; x00].

Definition prefixed : list byte := repeat x07 16 ++ full_table.

(** "Hi" and a null code unit, after the header. *)
Definition greeting : list byte :=
  header ++ utf16le [72; 105] ++ [x00; x00] ++ [x2a].

(** The eight bytes before the text of a choice option, then "X", a null
    code unit and "Y", of a declared length of six bytes. *)
Definition option_text : list byte :=
  repeat x00 8 ++ [x58; x00; x00; x00; x59; x00].

(** An archive of one entry: header, the path "a/b" at 0x14, four bytes of
    data at 0x18, the entry table at 0x1C. *)
Definition archive : list byte :=
  [x52; x20; x0d; x43]
  ++ [x1c; x00; x00; x00; x00; x00; x00; x00; x00; x00; x00; x00;
      x1c; x00; x00; x00]
  ++ [x61; x2f; x62; x00] ++ [xaa; xbb; xcc; xdd]
  ++ [x01; x03; x02; x00; x03; x00; x00; x00; x04; x00; x00; x00;
      x14; x00; x00; x00; x18; x00; x00; x00].

Definition archive_entry : Arc.FileEntry :=
  Arc.mkFileEntry "a/b" 1 2 3 4 20 24.

(** A choice sentinel announcing two options, cut off after its count. *)
Definition cut_choice : list byte :=
  [xf5; xff; xff; xff; x00; x00; x00; x00; x00; x00; x00; x00;
   x02; x00; x00; x00].

End Inputs.
Import Inputs.

(** ** Properties *)

Ltac run := vm_compute; reflexivity.

(** *** tobytes *)

(** C1. Decoding a row and encoding it again does not reproduce the bytes:
    on the layout of one gap byte and one u8, [feed] succeeds and [tobytes]
    raises AttributeError at [self.__getattr__].  If [self.__getattr__] is
    read as [getattr(self, .)], it raises KeyError at the gap entry, which
    has no ['name']. *)
Theorem tobytes_after_feed_raises :
  exists cls row,
    newrowclass ti_gap_u8 = Ok cls /\
    feed cls [x00; x05] None = Ok row /\
    row_data row = [VBytes [x00]; VInt 5] /\
    tobytes row = Raise (AttributeError "__getattr__") /\
    tobytes_with (Ok (getattr row)) row = Raise (KeyError "name").
Proof.
  destruct (newrowclass ti_gap_u8) as [cls|e] eqn:Hc; [|vm_compute in Hc; discriminate].
  destruct (feed cls [x00; x05] None) as [row|e] eqn:Hf;
    [|vm_compute in Hc; injection Hc as <-; vm_compute in Hf; discriminate].
  exists cls, row.
  vm_compute in Hc; injection Hc as <-.
  vm_compute in Hf; injection Hf as <-.
  repeat split; run.
Qed.

(** C2. Encoding then decoding a row with a bit field does not reproduce
    the sub-field values.  The row decoded from 0x21 has lo = 1, hi = 2, both
    below 2^4.  [tobytes] raises AttributeError; with [self.__getattr__]
    read as [getattr(self, .)] the packing loop yields 0x20, the last
    sub-field alone, which decodes to lo = 0. *)
Theorem bitfield_subfields_lost :
  exists cls row row',
    newrowclass ti_flags = Ok cls /\
    feed cls [x21] None = Ok row /\
    row_data row = [VInt 33; VInt 1; VInt 2] /\
    tobytes row = Raise (AttributeError "__getattr__") /\
    tobytes_with (Ok (getattr row)) row = Ok [x20] /\
    feed cls [x20] None = Ok row' /\
    row_data row' = [VInt 32; VInt 0; VInt 2].
Proof.
  destruct (newrowclass ti_flags) as [cls|e] eqn:Hc; [|vm_compute in Hc; discriminate].
  vm_compute in Hc; injection Hc as <-.
  eexists _, _, _.
  split; [reflexivity|].
  split; [run|].
  repeat split; run.
Qed.

(** *** Slices *)

Section Slices.
Context {A : Type}.
Implicit Types (l : list A) (a b : Z).

Lemma slice_unfold l a b :
  slice l a b =
  firstn (Z.to_nat (clip (Z.of_nat (List.length l)) b
                    - clip (Z.of_nat (List.length l)) a))
         (skipn (Z.to_nat (clip (Z.of_nat (List.length l)) a)) l).
Proof. reflexivity. Qed.

Lemma slice_past_end l a b :
  Z.of_nat (List.length l) <= a -> slice l a b = [].
Proof.
  intros Ha. rewrite slice_unfold.
  assert (Hc : clip (Z.of_nat (List.length l)) a = Z.of_nat (List.length l)).
  { unfold clip. destruct (a <? 0) eqn:E; [apply Z.ltb_lt in E|]; lia. }
  rewrite Hc, Nat2Z.id, skipn_all. now destruct (Z.to_nat _).
Qed.

Lemma slice_inside l a b :
  0 <= a -> a <= b -> b <= Z.of_nat (List.length l) ->
  slice l a b = firstn (Z.to_nat (b - a)) (skipn (Z.to_nat a) l).
Proof.
  intros H0 Hab Hb. rewrite slice_unfold. unfold clip.
  destruct (a <? 0) eqn:Ea; [apply Z.ltb_lt in Ea; lia|].
  destruct (b <? 0) eqn:Eb; [apply Z.ltb_lt in Eb; lia|].
  now rewrite !Z.min_l by lia.
Qed.

Lemma slice_length_le l a b :
  0 <= b - a -> Z.of_nat (List.length (slice l a b)) <= b - a.
Proof.
  intros H. rewrite slice_unfold, length_firstn, length_skipn.
  unfold clip.
  destruct (a <? 0) eqn:Ea; destruct (b <? 0) eqn:Eb;
    try apply Z.ltb_lt in Ea; try apply Z.ltb_lt in Eb;
    try apply Z.ltb_ge in Ea; try apply Z.ltb_ge in Eb; lia.
Qed.

Lemma slice_inside_length l a b :
  0 <= a -> a <= b -> b <= Z.of_nat (List.length l) ->
  Z.of_nat (List.length (slice l a b)) = b - a.
Proof.
  intros H0 Hab Hb. rewrite slice_inside by assumption.
  rewrite length_firstn, length_skipn. lia.
Qed.

(** A slice that comes out with all the [b - a] elements asked for lies
    inside the list, when it starts at a position counted from the front. *)
Lemma slice_full_inside l a b :
  0 <= a -> a < b -> Z.of_nat (List.length (slice l a b)) = b - a ->
  b <= Z.of_nat (List.length l).
Proof.
  intros H0 Hab. rewrite slice_unfold, length_firstn, length_skipn.
  unfold clip.
  destruct (a <? 0) eqn:Ea; [apply Z.ltb_lt in Ea; lia|].
  destruct (b <? 0) eqn:Eb; [apply Z.ltb_lt in Eb; lia|].
  lia.
Qed.

(** Two slices with the same start read the same suffix of the list. *)
Lemma slice_same_start l a b :
  exists n, slice l a b
            = firstn n (skipn (Z.to_nat (clip (Z.of_nat (List.length l)) a)) l).
Proof. eexists. apply slice_unfold. Qed.

End Slices.

(** *** Bytes *)

Lemma bytes_eqb_eq (a b : list byte) : bytes_eqb a b = true <-> a = b.
Proof.
  unfold bytes_eqb. destruct (list_eq_dec byte_eq_dec a b); split; congruence.
Qed.

Lemma bytes_eqb_neq (a b : list byte) : bytes_eqb a b = false <-> a <> b.
Proof.
  unfold bytes_eqb. destruct (list_eq_dec byte_eq_dec a b); split; congruence.
Qed.

Lemma byte_val_range (b : byte) : 0 <= byte_val b < 256.
Proof.
  unfold byte_val. pose proof (Byte.to_N_bounded b) as H.
  split; [apply N2Z.is_nonneg|]. apply N2Z.inj_le in H. simpl in H. lia.
Qed.

Lemma le_uint_nonneg (bs : list byte) : 0 <= le_uint bs.
Proof.
  induction bs as [|b bs IH]; cbn [le_uint]; [lia|].
  pose proof (byte_val_range b). lia.
Qed.

Lemma unpack_uint_nonneg n bs z : unpack_uint n bs = Ok z -> 0 <= z.
Proof.
  unfold unpack_uint. destruct (Nat.eqb _ _); [|discriminate].
  intros [= <-]. apply le_uint_nonneg.
Qed.

(** *** getstring: where the loop stops *)

Ltac split_step H :=
  unfold bind in H;
  repeat match type of H with
  | context [if ?b then _ else _] => destruct b eqn:?
  | context [match ?r with Ok _ => _ | Raise _ => _ end] => destruct r eqn:?
  | context [match lookup_button ?d ?k with _ => _ end] =>
      destruct (lookup_button d k)
  end.

Lemma null_is_no_sentinel (raw : list byte) (pos : Z) (b : byte) :
  slice raw pos (pos + 2) = [x00; x00] -> b <> x00 ->
  bytes_eqb (slice raw pos (pos + 4)) (sentinel b) = false.
Proof.
  intros Hnull Hb. apply bytes_eqb_neq. intros Hs.
  destruct (slice_same_start raw pos (pos + 2)) as [n Hn].
  destruct (slice_same_start raw pos (pos + 4)) as [m Hm].
  rewrite Hnull in Hn. rewrite Hs in Hm. unfold sentinel in Hm.
  destruct (skipn _ raw) as [|c rest]; destruct n, m; simpl in *; try discriminate.
  congruence.
Qed.

(** The loop leaves by [break] at a position exactly when the two bytes
    there are a null code unit. *)
Lemma step_break_iff (raw : list byte) (pos : Z) (strings : list text) :
  step raw pos strings = Ok None <-> slice raw pos (pos + 2) = [x00; x00].
Proof.
  split.
  - unfold step. intros H. split_step H; try discriminate.
    apply bytes_eqb_eq. now destruct (bytes_eqb _ [x00; x00]).
  - intros Hnull. unfold step.
    rewrite !(null_is_no_sentinel raw pos) by (assumption || discriminate).
    now rewrite Hnull.
Qed.

(** Past the end of the buffer every slice is empty: an empty slice is
    no sentinel and differs from the null code unit, it decodes to the empty
    string, and the position moves on by 2. *)
Lemma step_past_end (raw : list byte) (pos : Z) (strings : list text) :
  Z.of_nat (List.length raw) <= pos ->
  step raw pos strings = Ok (Some (pos + 2, strings ++ [[]])).
Proof.
  intros H. unfold step. now rewrite !slice_past_end by lia.
Qed.

Lemma getstring_loop_past_end (fuel : nat) :
  forall raw pos strings,
    Z.of_nat (List.length raw) <= pos ->
    getstring_loop fuel raw pos strings = Running.
Proof.
  induction fuel as [|fuel IH]; intros raw pos strings H; simpl; [reflexivity|].
  rewrite step_past_end by assumption. apply IH. lia.
Qed.

Lemma getstring_loop_scan (fuel : nat) :
  forall raw pos strings s,
    getstring_loop fuel raw pos strings = Returned s <->
    exists n p strings',
      (n < fuel)%nat /\ scan n raw pos strings = Some (p, strings') /\
      step raw p strings' = Ok None /\ s = List.concat strings'.
Proof.
  induction fuel as [|fuel IH]; intros raw pos strings s; simpl.
  - split; [discriminate|]. intros (n & _ & _ & Hn & _). lia.
  - destruct (step raw pos strings) as [[[p1 s1]|]|e] eqn:Hstep.
    + rewrite IH. split.
      * intros (n & p & s' & Hn & Hscan & Hbrk & Hs).
        exists (S n), p, s'. simpl. rewrite Hstep. repeat split; auto; lia.
      * intros (n & p & s' & Hn & Hscan & Hbrk & Hs).
        destruct n as [|n]; simpl in Hscan.
        -- injection Hscan as <- <-. congruence.
        -- rewrite Hstep in Hscan. exists n, p, s'. repeat split; auto; lia.
    + split.
      * intros [= <-]. exists O, pos, strings. simpl. repeat split; auto; lia.
      * intros (n & p & s' & Hn & Hscan & Hbrk & Hs).
        destruct n as [|n]; simpl in Hscan.
        -- injection Hscan as <- <-. now subst.
        -- rewrite Hstep in Hscan. discriminate.
    + split; [discriminate|].
      intros (n & p & s' & Hn & Hscan & Hbrk & Hs).
      destruct n as [|n]; simpl in Hscan.
      * injection Hscan as <- <-. congruence.
      * rewrite Hstep in Hscan. discriminate.
Qed.

(** A turn that goes on was not at a null code unit. *)
Lemma scan_earlier (n : nat) :
  forall raw pos strings p strings',
    scan n raw pos strings = Some (p, strings') ->
    forall m, (m < n)%nat ->
      exists q strings'',
        scan m raw pos strings = Some (q, strings'') /\
        slice raw q (q + 2) <> [x00; x00].
Proof.
  induction n as [|n IH]; intros raw pos strings p s' Hscan m Hm; [lia|].
  simpl in Hscan.
  destruct (step raw pos strings) as [[[p1 s1]|]|e] eqn:Hstep; try discriminate.
  destruct m as [|m].
  - exists pos, strings. split; [reflexivity|].
    intros Hnull. apply step_break_iff with (strings := strings) in Hnull. congruence.
  - simpl. rewrite Hstep. apply (IH _ _ _ _ _ Hscan). lia.
Qed.

Lemma getstring_loop_split (n : nat) :
  forall raw pos strings p strings',
    scan n raw pos strings = Some (p, strings') ->
    forall fuel,
      getstring_loop fuel raw pos strings =
      if (fuel <=? n)%nat then Running
      else getstring_loop (fuel - n) raw p strings'.
Proof.
  induction n as [|n IH]; intros raw pos strings p s' Hscan fuel; simpl in Hscan.
  - injection Hscan as <- <-. destruct fuel; [reflexivity|].
    now rewrite Nat.sub_0_r.
  - destruct (step raw pos strings) as [[[p1 s1]|]|e] eqn:Hstep; try discriminate.
    destruct fuel as [|fuel]; [reflexivity|].
    simpl getstring_loop at 1. rewrite Hstep, (IH _ _ _ _ _ Hscan).
    change (S fuel <=? S n)%nat with (fuel <=? n)%nat.
    now rewrite Nat.sub_succ.
Qed.

Lemma choices_advances (raw : list byte) (choice_count : Z) (indices : list nat) :
  forall pos strings p strings',
    choices raw choice_count indices pos strings = Ok (p, strings') -> pos <= p.
Proof.
  induction indices as [|i rest IH]; intros pos strings p s' H; simpl in H.
  - injection H as <- <-. lia.
  - destruct (unpack_uint 2 _) as [bc|] eqn:Hbc; simpl in H; [|discriminate].
    destruct (decode _) as [s|]; simpl in H; [|discriminate].
    apply IH in H. apply unpack_uint_nonneg in Hbc. lia.
Qed.

(** Every turn that goes on moves the position forward. *)
Lemma step_advances (raw : list byte) (pos : Z) (strings : list text) p strings' :
  step raw pos strings = Ok (Some (p, strings')) -> pos < p.
Proof.
  unfold step. intros H. split_step H; try discriminate;
    repeat match goal with
    | E : unpack_uint _ _ = Ok _ |- _ => apply unpack_uint_nonneg in E
    | E : choices _ _ _ _ _ = Ok ?r |- _ =>
        destruct r; apply choices_advances in E; cbn [fst snd] in H
    end;
    injection H as <- <-; lia.
Qed.

Lemma scan_advances (n : nat) :
  forall raw pos strings p strings',
    scan n raw pos strings = Some (p, strings') -> pos <= p.
Proof.
  induction n as [|n IH]; intros raw pos strings p s' H; simpl in H.
  - injection H as <- <-. lia.
  - destruct (step raw pos strings) as [[[p1 s1]|]|e] eqn:Hstep; try discriminate.
    apply step_advances in Hstep. apply IH in H. lia.
Qed.

(** C4, counterexample.  A buffer with a readable header whose text "A" at
    offset 0x24 runs to the end of the buffer: [getstring] never returns. *)
Lemma getstring_unterminated_never_returns :
  exists scr,
    load unterminated = Ok scr /\
    (forall fuel, getstring fuel scr 36 = Running) /\
    ~ (exists fuel s, getstring fuel scr 36 = Returned s).
Proof.
  eexists. split; [run|].
  assert (H : forall fuel,
             getstring fuel (mkSCR unterminated 2 4 36) 36 = Running).
  { intros fuel. unfold getstring.
    rewrite (getstring_loop_split 1 _ _ _ 38 [[65]]) by run.
    destruct (fuel <=? 1)%nat; [reflexivity|].
    apply getstring_loop_past_end. vm_compute. discriminate. }
  split; [exact H|].
  intros (fuel & s & Hs). now rewrite H in Hs.
Qed.

(** C4, as amended.  [getstring] returns only from a scan position that
    holds a null code unit, the first such position its scan reaches, and
    it returns whenever the scan reaches one; when the scan reaches the end
    of the buffer instead, it never returns. *)
Theorem getstring_returns_at_first_null (self : SCR) (offset : Z) :
  (forall fuel s,
      getstring fuel self offset = Returned s ->
      exists n p strings,
        (n < fuel)%nat /\
        scan n (raw self) offset [] = Some (p, strings) /\
        offset <= p /\
        slice (raw self) p (p + 2) = [x00; x00] /\
        s = List.concat strings /\
        forall m, (m < n)%nat ->
          exists q strings',
            scan m (raw self) offset [] = Some (q, strings') /\
            slice (raw self) q (q + 2) <> [x00; x00])
  /\
  (forall n p strings,
      scan n (raw self) offset [] = Some (p, strings) ->
      slice (raw self) p (p + 2) = [x00; x00] ->
      forall fuel, (n < fuel)%nat ->
        getstring fuel self offset = Returned (List.concat strings))
  /\
  (forall n p strings,
      scan n (raw self) offset [] = Some (p, strings) ->
      Z.of_nat (List.length (raw self)) <= p ->
      forall fuel, getstring fuel self offset = Running).
Proof.
  unfold getstring. repeat split.
  - intros fuel s H. apply getstring_loop_scan in H.
    destruct H as (n & p & strings & Hn & Hscan & Hbrk & Hs).
    exists n, p, strings. repeat split; auto.
    + eapply scan_advances; eassumption.
    + now apply step_break_iff in Hbrk.
    + eapply scan_earlier; eassumption.
  - intros n p strings Hscan Hnull fuel Hn.
    apply getstring_loop_scan. exists n, p, strings.
    repeat split; auto. now apply step_break_iff.
  - intros n p strings Hscan Hend fuel.
    rewrite (getstring_loop_split n _ _ _ _ _ Hscan).
    destruct (fuel <=? n)%nat; [reflexivity|].
    now apply getstring_loop_past_end.
Qed.

(** The three parts at work: "AB" and a null code unit; "A" and the end of
    the buffer. *)
Lemma getstring_returns_at_first_null_witness :
  exists scr scr',
    load terminated = Ok scr /\ load unterminated = Ok scr' /\
    getstring 3 scr 36 = Returned (ustr "AB") /\
    (forall fuel, getstring fuel scr' 36 = Running).
Proof.
  exists (mkSCR terminated 2 4 36), (mkSCR unterminated 2 4 36).
  split; [run|]. split; [run|]. split.
  - apply (proj1 (proj2 (getstring_returns_at_first_null
                           (mkSCR terminated 2 4 36) 36)) 2%nat 40 [[65]; [66]]);
      [run | run | lia].
  - apply (proj2 (proj2 (getstring_returns_at_first_null
                           (mkSCR unterminated 2 4 36) 36)) 1%nat 38 [[65]]);
      [run | vm_compute; discriminate].
Defined.

(** *** SCR: header, windows, load *)

Lemma init_fields (buffer : list byte) (self : SCR) :
  __init__ buffer = Ok self ->
  raw self = buffer /\
  0 <= row_count self /\ 0 <= row_length self /\ 0 <= table_offset self.
Proof.
  unfold __init__. destruct (unpack_uint 4 _) as [tio|]; simpl; [|discriminate].
  destruct (Nat.eqb _ 12); [|discriminate].
  intros [= <-]. simpl. repeat split; apply le_uint_nonneg.
Qed.

Lemma iterrowbytes_nth (self : SCR) (i : nat) :
  (i < Z.to_nat (row_count self))%nat ->
  nth_error (iterrowbytes self) i =
  Some (slice (raw self)
              (table_offset self + Z.of_nat i * row_length self)
              (table_offset self + Z.of_nat i * row_length self + row_length self)).
Proof.
  intros Hi. unfold iterrowbytes.
  rewrite nth_error_map, nth_error_seq.
  apply Nat.ltb_lt in Hi. now rewrite Hi.
Qed.

(** C5, counterexample.  The header announces two rows of four bytes at
    offset 0x24 of a buffer of 42 bytes: [SCR.__init__] accepts it, and the
    second window holds two bytes. *)
Lemma init_accepts_table_past_end :
  exists scr,
    __init__ short_table = Ok scr /\
    Z.of_nat (List.length (raw scr))
      < table_offset scr + row_count scr * row_length scr /\
    row_length scr = 4 /\
    iterrowbytes scr = [[x01; x02; x03; x04]; [x05; x06]].
Proof.
  eexists. split; [run|]. repeat split; run.
Qed.

(** C5, as amended.  [SCR.__init__] compares nothing with the length of the
    buffer.  [iterrowbytes] yields [row_count] windows; window [i] is the
    slice of the buffer from [table_offset + i * row_length] on, at most
    [row_length] bytes of it, and exactly [row_length] bytes when the row
    ends inside the buffer, which a non-empty row must to be complete. *)
Theorem iterrowbytes_windows (buffer : list byte) (self : SCR) :
  __init__ buffer = Ok self ->
  List.length (iterrowbytes self) = Z.to_nat (row_count self) /\
  forall i, (i < Z.to_nat (row_count self))%nat ->
    let offset := table_offset self + Z.of_nat i * row_length self in
    exists w,
      nth_error (iterrowbytes self) i = Some w /\
      w = slice buffer offset (offset + row_length self) /\
      Z.of_nat (List.length w) <= row_length self /\
      (offset + row_length self <= Z.of_nat (List.length buffer) ->
         w = firstn (Z.to_nat (row_length self)) (skipn (Z.to_nat offset) buffer) /\
         Z.of_nat (List.length w) = row_length self) /\
      (0 < row_length self -> Z.of_nat (List.length w) = row_length self ->
         offset + row_length self <= Z.of_nat (List.length buffer)).
Proof.
  intros Hinit. destruct (init_fields _ _ Hinit) as (Hraw & Hc & Hl & Ho).
  split.
  - unfold iterrowbytes. now rewrite length_map, length_seq.
  - intros i Hi offset. eexists. split; [now apply iterrowbytes_nth|].
    rewrite Hraw. fold offset.
    assert (H0 : 0 <= offset) by (unfold offset; nia).
    split; [reflexivity|]. split; [|split].
    + pose proof (slice_length_le buffer offset (offset + row_length self)). lia.
    + intros Hin. split.
      * rewrite slice_inside by lia. do 2 f_equal. lia.
      * rewrite slice_inside_length; lia.
    + intros Hpos Hlen.
      apply (slice_full_inside buffer offset); lia.
Qed.

Lemma iterrowbytes_windows_witness :
  exists self,
    __init__ full_table = Ok self /\
    iterrowbytes self = [[x01; x02; x03; x04]; [x05; x06; x07; x08]] /\
    List.length (iterrowbytes self) = Z.to_nat (row_count self).
Proof.
  exists (mkSCR full_table 2 4 36).
  split; [run|]. split; [run|].
  apply (iterrowbytes_windows full_table). run.
Defined.

(** C6, counterexample.  The magic at byte 0 and nothing after it: the magic
    test passes and [SCR.__init__] raises struct.error on the header. *)
Lemma load_magic_alone_fails :
  firstn 4 magic = magic /\ load magic = Raise StructError.
Proof. split; run. Qed.

(** C6, as amended.  The magic at byte 0: [load] hands the whole file to
    [SCR].  Otherwise the magic at byte 0x10: [load] hands over the file
    without its first 16 bytes, which starts with the magic.  Otherwise
    UnsupportedSCRError.  In the first two cases [load] is what
    [SCR.__init__] comes to on that buffer. *)
Theorem load_magic_dispatch (file : list byte) :
  (firstn 4 file = magic -> load file = __init__ file) /\
  (firstn 4 file <> magic -> firstn 4 (skipn 16 file) = magic ->
     load file = __init__ (skipn 16 file)) /\
  (firstn 4 file <> magic -> firstn 4 (skipn 16 file) <> magic ->
     load file = Raise UnsupportedSCRError) /\
  (forall scr, load file = Ok scr ->
     firstn 4 (raw scr) = magic /\
     (raw scr = file \/ (firstn 4 file <> magic /\ raw scr = skipn 16 file))).
Proof.
  unfold load. repeat split.
  - intros H. apply bytes_eqb_eq in H. now rewrite H.
  - intros H0 H16. apply bytes_eqb_neq in H0. apply bytes_eqb_eq in H16.
    now rewrite H0, H16.
  - intros H0 H16. apply bytes_eqb_neq in H0. apply bytes_eqb_neq in H16.
    now rewrite H0, H16.
  - destruct (bytes_eqb (firstn 4 file) magic) eqn:E0.
    + apply init_fields in H. destruct H as [-> _]. now apply bytes_eqb_eq.
    + destruct (bytes_eqb (firstn 4 (skipn 16 file)) magic) eqn:E16; [|discriminate].
      apply init_fields in H. destruct H as [-> _]. now apply bytes_eqb_eq.
  - destruct (bytes_eqb (firstn 4 file) magic) eqn:E0.
    + apply init_fields in H. destruct H as [-> _]. now left.
    + destruct (bytes_eqb (firstn 4 (skipn 16 file)) magic) eqn:E16; [|discriminate].
      apply init_fields in H. destruct H as [-> _]. right.
      split; [now apply bytes_eqb_neq|reflexivity].
Qed.

Lemma load_magic_dispatch_witness :
  load full_table = __init__ full_table /\
  load prefixed = __init__ full_table /\
  load (repeat x07 24) = Raise UnsupportedSCRError.
Proof.
  split; [|split].
  - apply (proj1 (load_magic_dispatch full_table)). run.
  - apply (proj1 (proj2 (load_magic_dispatch prefixed))); [vm_compute; discriminate | run].
  - apply (proj1 (proj2 (proj2 (load_magic_dispatch (repeat x07 24)))));
      vm_compute; discriminate.
Defined.

(** *** feed *)

Lemma startswith_enum (t : string) :
  startswith t "enum" = true ->
  String.eqb t "str" = false /\ startswith t "bit" = false.
Proof.
  unfold startswith. destruct t as [|c t]; [discriminate|].
  cbn [prefix]. destruct (ascii_dec "e" c) as [<-|]; [|discriminate].
  intros _. split; reflexivity.
Qed.

Lemma str_is_no_bit (t : string) :
  String.eqb t "str" = true -> startswith t "bit" = false.
Proof. intros H. apply String.eqb_eq in H. now subst. Qed.

Lemma feed_loop_raises (hook : hook_t) (pairs : list (Column * pyval)) :
  forall info element e,
    In (info, element) pairs ->
    feed_column hook info element = Raise e ->
    exists e', feed_loop hook pairs = Raise e'.
Proof.
  induction pairs as [|[info' element'] rest IH]; intros info element e Hin Hcol.
  - destruct Hin.
  - simpl. destruct Hin as [[= -> ->]|Hin].
    + rewrite Hcol. now exists e.
    + destruct (feed_column hook info' element') as [d|e1]; [|now exists e1].
      destruct (IH _ _ _ Hin Hcol) as [e' ->]. now exists e'.
Qed.

(** C7, counterexample.  The enum table has labels for 0 and 1; the byte 7
    makes [feed] raise KeyError whatever the caller passes: [feed] takes the
    class, the bytes and the string hook, and none of them selects a
    pass-through of the raw integer. *)
Lemma enum_policy_not_selectable :
  newrowclass ti_enum = Ok cls_enum /\
  (forall hook, feed cls_enum [x07] hook = Raise (KeyError "7")) /\
  ~ (exists hook row, feed cls_enum [x07] hook = Ok row).
Proof.
  split; [run|].
  assert (H : forall hook, feed cls_enum [x07] hook = Raise (KeyError "7"))
    by (intros hook; reflexivity).
  split; [exact H|].
  intros (hook & row & Hrow). now rewrite H in Hrow.
Qed.

(** C7, as amended.  For an enum column, a raw integer without a label in
    the column's enum table makes the lookup raise KeyError on the formatted
    integer, and [feed] raise, with every hook: there is one behaviour, and
    no pass-through of the raw integer. *)
Theorem enum_without_label_raises (cls : RowClass) (bytes_obj : list byte)
    (get_string_hook : hook_t) (rawdata : list pyval) (info : Column) (z : Z)
    (table : list (string * text)) :
  unpack (struct_obj cls) bytes_obj = Ok rawdata ->
  In (info, VInt z) (combine (columns cls) rawdata) ->
  startswith (c_type info) "enum" = true ->
  c_enum info = Some table ->
  lookup table (format_int z) = None ->
  feed_column get_string_hook info (VInt z) = Raise (KeyError (format_int z)) /\
  exists e, feed cls bytes_obj get_string_hook = Raise e.
Proof.
  intros Hun Hin Henum Htab Hlook.
  destruct (startswith_enum _ Henum) as [Hstr Hbit].
  assert (Hcol : feed_column get_string_hook info (VInt z)
                 = Raise (KeyError (format_int z))).
  { unfold feed_column. rewrite Hstr, Hbit, Henum, Htab. simpl.
    unfold getitem. now rewrite Hlook. }
  split; [exact Hcol|].
  unfold feed. rewrite Hun. simpl.
  destruct (feed_loop_raises get_string_hook _ _ _ _ Hin Hcol) as [e ->].
  now exists e.
Qed.

Lemma enum_without_label_raises_witness :
  newrowclass ti_enum = Ok cls_enum /\
  exists e, feed cls_enum [x07] None = Raise e.
Proof.
  split; [run|].
  apply (enum_without_label_raises cls_enum [x07] None [VInt 7] kind 7
           [("0"%string, ustr "None"); ("1"%string, ustr "Sword")]).
  - reflexivity.
  - simpl. left. reflexivity.
  - reflexivity.
  - reflexivity.
  - reflexivity.
Defined.

Lemma mapM_length {A B} (f : A -> result B) (l : list A) :
  forall bs, mapM f l = Ok bs -> List.length bs = List.length l.
Proof.
  induction l as [|a l IH]; intros bs H; simpl in H.
  - now injection H as <-.
  - destruct (f a); simpl in H; [|discriminate].
    destruct (mapM f l) eqn:E; simpl in H; [|discriminate].
    injection H as <-. simpl. now rewrite (IH _ eq_refl).
Qed.

Lemma feed_column_width (hook : hook_t) (info : Column) (element : pyval) d :
  feed_column hook info element = Ok d -> List.length d = data_width info.
Proof.
  unfold feed_column, data_width.
  destruct (String.eqb (c_type info) "str") eqn:Estr.
  - rewrite (str_is_no_bit _ Estr).
    destruct hook as [h|].
    + destruct (h element); simpl; [|discriminate]. now intros [= <-].
    + destruct (startswith (c_type info) "enum").
      * destruct (c_enum info); simpl; [|discriminate].
        destruct (format_val element); simpl; [|discriminate].
        destruct (getitem _ _); simpl; [|discriminate]. now intros [= <-].
      * now intros [= <-].
  - destruct (startswith (c_type info) "bit").
    + destruct (c_columns info) as [bcs|]; simpl; [|discriminate].
      destruct (mapM _ bcs) eqn:E; simpl; [|discriminate].
      intros [= <-]. simpl. now rewrite (mapM_length _ _ _ E).
    + destruct (startswith (c_type info) "enum").
      * destruct (c_enum info); simpl; [|discriminate].
        destruct (format_val element); simpl; [|discriminate].
        destruct (getitem _ _); simpl; [|discriminate]. now intros [= <-].
      * now intros [= <-].
Qed.

(** The values of the column at index [i] sit in the row at
    [data_index cols i]. *)
Lemma feed_loop_nth (hook : hook_t) (cols : list Column) :
  forall rawdata data i info element,
    feed_loop hook (combine cols rawdata) = Ok data ->
    nth_error cols i = Some info ->
    nth_error rawdata i = Some element ->
    exists pre d post,
      feed_column hook info element = Ok d /\
      data = pre ++ d ++ post /\
      List.length pre = data_index cols i.
Proof.
  induction cols as [|c cols IH]; intros rawdata data i info element Hloop Hc Hr.
  - now destruct i.
  - destruct rawdata as [|r rawdata]; [now destruct i|].
    simpl in Hloop.
    destruct (feed_column hook c r) as [d0|] eqn:Hd0; simpl in Hloop; [|discriminate].
    destruct (feed_loop hook (combine cols rawdata)) as [ds|] eqn:Hds;
      simpl in Hloop; [|discriminate].
    injection Hloop as <-.
    destruct i as [|i]; simpl in Hc, Hr.
    + injection Hc as <-. injection Hr as <-.
      exists [], d0, ds. now rewrite Hd0.
    + destruct (IH _ _ _ _ _ Hds Hc Hr) as (pre & d & post & Hd & -> & Hlen).
      exists (d0 ++ pre), d, post. split; [exact Hd|]. split.
      * now rewrite <- app_assoc.
      * rewrite length_app, Hlen, (feed_column_width _ _ _ _ Hd0).
        reflexivity.
Qed.

Lemma nth_error_middle {A} (pre post : list A) (x : A) :
  nth_error (pre ++ [x] ++ post) (List.length pre) = Some x.
Proof. induction pre; simpl; auto. Qed.

(** C10.  A 'str' column of a row decoded without a hook holds the value
    [unpack] produced for it, the raw integer; with a hook it holds what the
    hook returns for that value. *)
Theorem str_column_without_hook (cls : RowClass) (bytes_obj : list byte)
    (rawdata : list pyval) (i : nat) (info : Column) (element : pyval) :
  c_type info = "str"%string ->
  unpack (struct_obj cls) bytes_obj = Ok rawdata ->
  nth_error (columns cls) i = Some info ->
  nth_error rawdata i = Some element ->
  (forall row,
      feed cls bytes_obj None = Ok row ->
      nth_error (row_data row) (data_index (columns cls) i) = Some element) /\
  (forall hook row,
      feed cls bytes_obj (Some hook) = Ok row ->
      exists v, hook element = Ok v /\
        nth_error (row_data row) (data_index (columns cls) i) = Some v).
Proof.
  intros Ht Hun Hc Hr. unfold feed. rewrite Hun. simpl. split.
  - intros row H.
    destruct (feed_loop None _) as [data|] eqn:Hloop; simpl in H; [|discriminate].
    unfold _make in H. destruct (Nat.eqb _ _); [|discriminate].
    injection H as <-. simpl.
    destruct (feed_loop_nth _ _ _ _ _ _ _ Hloop Hc Hr) as (pre & d & post & Hd & -> & <-).
    unfold feed_column in Hd. rewrite Ht in Hd. simpl in Hd.
    injection Hd as <-. apply nth_error_middle.
  - intros hook row H.
    destruct (feed_loop (Some hook) _) as [data|] eqn:Hloop; simpl in H; [|discriminate].
    unfold _make in H. destruct (Nat.eqb _ _); [|discriminate].
    injection H as <-. simpl.
    destruct (feed_loop_nth _ _ _ _ _ _ _ Hloop Hc Hr) as (pre & d & post & Hd & -> & <-).
    unfold feed_column in Hd. rewrite Ht in Hd. simpl in Hd.
    destruct (hook element) as [v|]; simpl in Hd; [|discriminate].
    injection Hd as <-. exists v. split; [reflexivity|]. apply nth_error_middle.
Qed.

(** The row of a bit8 column and a 'str' column: the string reference
    0x04030201 is the fourth value of the row. *)
Lemma str_column_without_hook_witness :
  newrowclass ti_name_ref = Ok cls_name_ref /\
  exists row,
    feed cls_name_ref [x21; x01; x02; x03; x04] None = Ok row /\
    nth_error (row_data row) 3 = Some (VInt 67305985).
Proof.
  split; [run|]. eexists. split; [run|].
  apply (proj1 (str_column_without_hook cls_name_ref [x21; x01; x02; x03; x04]
                  [VInt 33; VInt 67305985] 1
                  (plain "str" "title" 1) (VInt 67305985)
                  eq_refl eq_refl eq_refl eq_refl)).
  run.
Defined.

(** *** Struct formats written by newrowclass *)

Lemma append_assoc (a b c : string) : ((a ++ b) ++ c = a ++ (b ++ c))%string.
Proof. induction a as [|x a IH]; simpl; [reflexivity|now rewrite IH]. Qed.

Lemma append_nil_r (a : string) : (a ++ "" = a)%string.
Proof. induction a as [|x a IH]; simpl; [reflexivity|now rewrite IH]. Qed.

Lemma bind_ok_r {A} (r : result A) : (x <- r ;; Ok x) = r.
Proof. now destruct r. Qed.

Lemma parse_count (d : Decimal.uint) :
  forall k rest,
    parse_items (NilEmpty.string_of_uint d ++ String "s" rest) (Some k) =
    (fs <- parse_items rest None ;;
     Ok (FBytes (N.to_nat (N.of_uint (k d))) :: fs)).
Proof.
  induction d; intros k rest;
    try reflexivity;
    cbn [NilEmpty.string_of_uint append parse_items digit_of push_digit];
    match goal with
    | |- context [parse_items _ (Some (fun d0 => k (?D d0)))] =>
        apply (IHd (fun d0 => k (D d0)))
    end.
Qed.

Lemma parse_decimal (d : Decimal.uint) (rest : string) :
  d <> Decimal.Nil ->
  parse_items (NilZero.string_of_uint d ++ String "s" rest) None =
  (fs <- parse_items rest None ;; Ok (FBytes (N.to_nat (N.of_uint d)) :: fs)).
Proof.
  intros Hd. destruct d; try congruence;
    cbn [NilZero.string_of_uint NilEmpty.string_of_uint append parse_items
         digit_of push_digit];
    match goal with
    | |- parse_items _ (Some ?D) = _ => apply (parse_count d D)
    end.
Qed.

(** A gap of [n] bytes, written ["{}s".format(n)], is read as one bytes
    field of [n] bytes. *)
Lemma reads_gap (n : Z) :
  0 < n -> reads (format_int n ++ "s") [FBytes (Z.to_nat n)].
Proof.
  intros Hn rest. destruct n as [|p|p]; try lia.
  rewrite append_assoc. cbn [append].
  unfold format_int. cbn [Z.to_int NilZero.string_of_int].
  rewrite parse_decimal by apply DecimalPos.Unsigned.to_uint_nonnil.
  unfold N.of_uint. rewrite DecimalPos.Unsigned.of_to.
  now rewrite positive_N_nat, Z2Nat.inj_pos.
Qed.

(** The characters of the catalog. *)
Lemma types_code (t : string) (structchr : ascii) :
  getitem types t = Ok structchr ->
  exists f,
    code_field structchr = Some f /\ digit_of structchr = None /\
    Ascii.eqb structchr "s" = false /\ (0 < field_size f)%nat.
Proof.
  unfold getitem, types, ty. cbn [lookup].
  repeat (destruct (String.eqb _ t);
          [intros [= <-]; eexists; repeat split; simpl; lia|]).
  discriminate.
Qed.

Lemma reads_code (structchr : ascii) (f : field) :
  code_field structchr = Some f -> digit_of structchr = None ->
  Ascii.eqb structchr "s" = false ->
  reads (String structchr "") [f].
Proof.
  intros Hf Hd Hs rest. cbn [append parse_items].
  now rewrite Hd, Hs, Hf.
Qed.

Lemma reads_nil : reads "" [].
Proof. intros rest. simpl. now rewrite bind_ok_r. Qed.

Lemma reads_app (a b : string) (fa fb : list field) :
  reads a fa -> reads b fb -> reads (a ++ b) (fa ++ fb).
Proof.
  intros Ha Hb rest. rewrite append_assoc, Ha, Hb.
  destruct (parse_items rest None); simpl; [|reflexivity].
  now rewrite app_assoc.
Qed.

Lemma reads_all (sfx : string) (fs : list field) :
  reads sfx fs -> parse_items sfx None = Ok fs.
Proof.
  intros H. specialize (H ""%string). rewrite append_nil_r in H.
  rewrite H. simpl. now rewrite app_nil_r.
Qed.

(** *** newrowclass: the loop *)





(** What one turn of the loop does to its variables: the column is read
    with its offset and the character of its kind; a gap comes before it
    exactly when its offset is past [gapstart]. *)
Lemma compile_column_spec (st st1 : loopstate) (c : Column) :
  compile_column st c = Ok st1 ->
  exists structchr f,
    is_some (c_offset c) = true /\
    getitem types (c_type c) = Ok structchr /\
    code_field structchr = Some f /\
    c_size c = Z.of_nat (field_size f) /\ (0 < field_size f)%nat /\
    l_gapstart st1 = c_end c /\
    ((c_off c <= l_gapstart st /\
      l_structstr st1 = (l_structstr st ++ String structchr "")%string /\
      l_newtableinfo st1 = l_newtableinfo st ++ [c] /\
      reads (String structchr "") [f])
     \/
     (l_gapstart st < c_off c /\
      l_structstr st1 =
        (l_structstr st
         ++ (format_int (c_off c - l_gapstart st) ++ "s") ++ String structchr "")%string /\
      l_newtableinfo st1 = l_newtableinfo st ++ [gap; c] /\
      reads ((format_int (c_off c - l_gapstart st) ++ "s") ++ String structchr "")
            [FBytes (Z.to_nat (c_off c - l_gapstart st)); f])).
Proof.
  unfold compile_column, c_end, c_off, c_size.
  destruct (c_offset c) as [offset|]; cbn [bind getkey]; [|discriminate].
  destruct (c_name c) as [name|]; cbn [bind getkey]; [|discriminate].
  destruct (if startswith (c_type c) "bit" then _ else _) as [names|];
    cbn [bind]; [|discriminate].
  destruct (getitem types (c_type c)) as [structchr|] eqn:Hty; cbn [bind]; [|discriminate].
  intros [= <-]. cbn [l_gapstart l_structstr l_newtableinfo l_columns is_some].
  destruct (types_code _ _ Hty) as (f & Hf & Hd & Hs & Hpos).
  exists structchr, f.
  assert (Hlook : lookup types (c_type c) = Some structchr).
  { unfold getitem in Hty. destruct (lookup types (c_type c)); congruence. }
  rewrite Hlook. unfold calcsize. rewrite Hf.
  repeat split; auto.
  destruct (offset >? l_gapstart st) eqn:E.
  - right. apply Z.gtb_lt in E.
    cbn [add_gap l_gapstart l_structstr l_newtableinfo l_columns].
    repeat split; try lia.
    + now rewrite append_assoc.
    + now rewrite <- app_assoc.
    + apply (reads_app _ _ [_] [_]); [apply reads_gap; lia|now apply reads_code].
  - left. rewrite Z.gtb_ltb in E. apply Z.ltb_ge in E.
    repeat split; auto. now apply reads_code.
Qed.

(** The loop only appends: to the format a suffix that is read as the
    fields [fs], to [newtableinfo] as many entries. *)
Lemma compile_columns_reads (cols : list Column) :
  forall st st',
    compile_columns st cols = Ok st' ->
    exists sfx ents fs,
      l_structstr st' = (l_structstr st ++ sfx)%string /\
      l_newtableinfo st' = l_newtableinfo st ++ ents /\
      reads sfx fs /\ List.length ents = List.length fs.
Proof.
  induction cols as [|c cols IH]; intros st st' H; simpl in H.
  - injection H as <-. exists ""%string, [], [].
    rewrite append_nil_r, app_nil_r. repeat split. apply reads_nil.
  - destruct (compile_column st c) as [st1|] eqn:Hc; simpl in H; [|discriminate].
    destruct (IH _ _ H) as (sfx & ents & fs & Hs & He & Hr & Hl).
    destruct (compile_column_spec _ _ _ Hc)
      as (chr & f & _ & _ & _ & _ & _ & _ & [(_ & Hs1 & He1 & Hr1)|(_ & Hs1 & He1 & Hr1)]).
    + exists (String chr "" ++ sfx)%string, ([c] ++ ents), ([f] ++ fs).
      rewrite Hs, He, Hs1, He1, append_assoc, <- app_assoc.
      repeat split; [now apply reads_app|simpl; lia].
    + eexists (_ ++ sfx)%string, ([gap; c] ++ ents), (_ ++ fs).
      rewrite Hs, He, Hs1, He1, append_assoc, <- app_assoc.
      repeat split; [apply reads_app; eassumption|simpl; lia].
Qed.

Lemma keyed_column_compiles (st : loopstate) (c : Column) :
  keyed c = true -> exists st1, compile_column st c = Ok st1.
Proof.
  unfold keyed, compile_column. intros H.
  apply andb_prop in H. destruct H as [H Hbit].
  apply andb_prop in H. destruct H as [H Hty].
  apply andb_prop in H. destruct H as [Hname Hoff].
  destruct (c_offset c); [|discriminate].
  destruct (c_name c); [|discriminate]. simpl.
  unfold getitem. destruct (lookup types (c_type c)); [|discriminate].
  destruct (startswith (c_type c) "bit").
  - destruct (c_columns c); [|discriminate]. simpl. eauto.
  - simpl. eauto.
Qed.

Lemma keyed_columns_compile (cols : list Column) :
  forallb keyed cols = true ->
  forall st, exists st', compile_columns st cols = Ok st'.
Proof.
  induction cols as [|c cols IH]; intros H st; simpl.
  - eauto.
  - simpl in H. apply andb_prop in H. destruct H as [Hc Hcols].
    destruct (keyed_column_compiles st c Hc) as [st1 ->]. simpl. now apply IH.
Qed.

Lemma add_gap_reads (st : loopstate) (upto : Z) :
  l_gapstart st < upto ->
  l_structstr (add_gap st upto)
    = (l_structstr st ++ (format_int (upto - l_gapstart st) ++ "s"))%string /\
  l_newtableinfo (add_gap st upto) = l_newtableinfo st ++ [gap] /\
  reads (format_int (upto - l_gapstart st) ++ "s")
        [FBytes (Z.to_nat (upto - l_gapstart st))].
Proof.
  intros H. repeat split. apply reads_gap. lia.
Qed.

(** The layout part of [newrowclass] appends to the byte-order prefix a
    format that [Struct] reads, field for entry of [newtableinfo]. *)
Lemma compile_layout_reads (ti : TableInfo) (st : loopstate) :
  compile_layout ti = Ok st ->
  exists sfx fs,
    l_structstr st
      = ((match ti_endianess ti with Some s => s | None => "<" end) ++ sfx)%string /\
    reads sfx fs /\ List.length (l_newtableinfo st) = List.length fs.
Proof.
  unfold compile_layout.
  destruct (compile_columns _ _) as [st0|] eqn:Hc; simpl; [|discriminate].
  intros [= <-].
  destruct (compile_columns_reads _ _ _ Hc) as (sfx & ents & fs & Hs & He & Hr & Hl).
  simpl in Hs, He.
  destruct (l_gapstart st0 <? ti_row_length ti) eqn:E.
  - apply Z.ltb_lt in E.
    destruct (add_gap_reads st0 _ E) as (Hs' & He' & Hr').
    eexists (sfx ++ _)%string, (fs ++ _).
    rewrite Hs', He', Hs, He, append_assoc.
    repeat split; [apply reads_app; eassumption|].
    rewrite !length_app. simpl. lia.
  - exists sfx, fs. rewrite Hs, He. repeat split; auto.
Qed.

Lemma Struct_new_reads (prefix sfx : string) (fs : list field) :
  reads sfx fs ->
  (String.eqb prefix "<" || String.eqb prefix ">" || String.eqb prefix "!") = true ->
  exists o,
    Struct_new (prefix ++ sfx) = Ok (mkStruct (prefix ++ sfx) o fs) /\
    (String.eqb prefix "<" = true -> o = LittleEndian).
Proof.
  intros Hr Hp. apply reads_all in Hr.
  destruct (String.eqb prefix "<") eqn:E1.
  - apply String.eqb_eq in E1. subst prefix. exists LittleEndian.
    cbn [append Struct_new Ascii.eqb Bool.eqb]. rewrite Hr. now split.
  - destruct (String.eqb prefix ">") eqn:E2.
    + apply String.eqb_eq in E2. subst prefix. exists BigEndian.
      cbn [append]. unfold Struct_new. simpl Ascii.eqb. simpl orb. cbv iota.
      rewrite Hr. now split.
    + simpl in Hp. apply String.eqb_eq in Hp. subst prefix. exists BigEndian.
      cbn [append]. unfold Struct_new. simpl Ascii.eqb. simpl orb. cbv iota.
      rewrite Hr. now split.
Qed.

(** *** newrowclass: byte order *)

(** C9.  Without an ['endianess'] key the format of the compiled struct
    begins with ["<"], its byte order is little-endian, and that is the
    order every field is unpacked in. *)
Theorem default_little_endian (ti : TableInfo) (cls : RowClass) :
  ti_endianess ti = None ->
  newrowclass ti = Ok cls ->
  (exists rest, format (struct_obj cls) = String "<" rest) /\
  order (struct_obj cls) = LittleEndian /\
  (forall data vals,
      unpack (struct_obj cls) data = Ok vals ->
      vals = unpack_fields LittleEndian (fields (struct_obj cls)) data).
Proof.
  intros Hend Hnew. unfold newrowclass in Hnew.
  destruct (compile_layout ti) as [st|] eqn:Hlay; simpl in Hnew; [|discriminate].
  destruct (namedtuple _) as [names|]; simpl in Hnew; [|discriminate].
  destruct (Struct_new _) as [s|] eqn:Hs; simpl in Hnew; [|discriminate].
  injection Hnew as <-. simpl.
  destruct (compile_layout_reads _ _ Hlay) as (sfx & fs & Hstr & _ & _).
  rewrite Hend in Hstr. cbn [append] in Hstr. rewrite Hstr in Hs.
  unfold Struct_new in Hs. cbn [Ascii.eqb Bool.eqb] in Hs.
  destruct (parse_items sfx None) as [fs'|]; simpl in Hs; [|discriminate].
  injection Hs as <-. simpl. repeat split.
  - now exists sfx.
  - intros data vals. unfold unpack. cbn [fields order].
    destruct (Nat.eqb _ _); [|discriminate]. now intros [= <-].
Qed.

(** The u16 at offset 4, bytes 05 06, is 0x0605. *)
Lemma default_little_endian_witness :
  newrowclass ti_two_fields = Ok cls_two_fields /\
  order (struct_obj cls_two_fields) = LittleEndian /\
  unpack (struct_obj cls_two_fields) [x01; x02; x03; x04; x05; x06; x07; x08]
  = Ok [VBytes [x01]; VInt 2; VBytes [x03; x04]; VInt 1541; VBytes [x07; x08]].
Proof.
  split; [run|]. split; [|run].
  apply (default_little_endian ti_two_fields cls_two_fields); run.
Defined.

(** *** newrowclass: no check of ranges *)

Lemma compile_layout_keyed (ti : TableInfo) :
  forallb keyed (ti_columns ti) = true ->
  exists st, compile_layout ti = Ok st.
Proof.
  intros Hkeyed. unfold compile_layout.
  destruct (keyed_columns_compile _ Hkeyed
              (mkLoop [] [] 0
                 (match ti_endianess ti with Some s => s | None => "<"%string end)))
    as [st0 ->].
  cbn [bind]. eauto.
Qed.

Lemma byte_order_prefix (ti : TableInfo) :
  byte_order_given ti = true ->
  (String.eqb (match ti_endianess ti with Some s => s | None => "<" end) "<"
   || String.eqb (match ti_endianess ti with Some s => s | None => "<" end) ">"
   || String.eqb (match ti_endianess ti with Some s => s | None => "<" end) "!")%string
  = true.
Proof.
  unfold byte_order_given. intros H.
  destruct (ti_endianess ti); [exact H|reflexivity].
Qed.


(** C3, counterexample.  Two columns over the same bytes, a column past the
    end of the row, a sub-field past the width of its parent: each is
    compiled to a layout. *)
Lemma newrowclass_accepts_bad_ranges :
  non_overlapping (ti_columns ti_overlap) = false /\
  is_ok (newrowclass ti_overlap) = true /\
  forallb (in_bounds (ti_row_length ti_past_end)) (ti_columns ti_past_end) = false /\
  is_ok (newrowclass ti_past_end) = true /\
  is_ok (newrowclass ti_wide_bits) = true.
Proof. repeat split; run. Qed.

(** C3, as amended.  [newrowclass] checks no byte range and no bit range.
    When every column has its name, its offset and a kind of the catalog
    (and its sub-field list, for a bit kind), the loop runs through, and
    the outcome rests on [namedtuple] alone: the layout if it accepts the
    collected names, its ValueError if not. *)
Theorem newrowclass_checks_no_range (ti : TableInfo) :
  forallb keyed (ti_columns ti) = true ->
  byte_order_given ti = true ->
  exists st,
    compile_layout ti = Ok st /\
    (forall names,
        namedtuple (l_columns st) = Ok names ->
        exists cls,
          newrowclass ti = Ok cls /\
          field_names cls = names /\
          columns cls = l_newtableinfo st /\
          format (struct_obj cls) = l_structstr st) /\
    (forall e,
        namedtuple (l_columns st) = Raise e ->
        e = ValueError /\ newrowclass ti = Raise ValueError).
Proof.
  intros Hkeyed Horder.
  destruct (compile_layout_keyed ti Hkeyed) as [st Hlay].
  exists st. split; [exact Hlay|].
  destruct (compile_layout_reads _ _ Hlay) as (sfx & fs & Hstr & Hreads & _).
  destruct (Struct_new_reads _ _ _ Hreads (byte_order_prefix ti Horder)) as (o & Hs & _).
  rewrite <- Hstr in Hs.
  unfold newrowclass. rewrite Hlay. cbn [bind]. split.
  - intros names Hn. rewrite Hn. cbn [bind]. rewrite Hs. cbn [bind].
    eexists. split; [reflexivity|]. repeat split.
  - intros e He. rewrite He. cbn [bind].
    unfold namedtuple in He. destruct (_ && _); [discriminate|].
    injection He as <-. now split.
Qed.

Lemma newrowclass_checks_no_range_witness :
  exists cls, newrowclass ti_overlap = Ok cls.
Proof.
  destruct (newrowclass_checks_no_range ti_overlap eq_refl eq_refl)
    as (st & Hst & Hok & _).
  vm_compute in Hst. injection Hst as <-.
  destruct (Hok _ eq_refl) as (cls & H & _).
  exists cls. exact H.
Defined.

(** *** newrowclass: the layout partitions the row *)








(** ** Further properties of scr.py *)

(** *** getstring: progress and exceptions *)

Lemma step_advances_by_two (raw : list byte) (pos : Z) (strings : list text)
    p strings' :
  step raw pos strings = Ok (Some (p, strings')) -> pos + 2 <= p.
Proof.
  unfold step. intros H. split_step H; try discriminate;
    repeat match goal with
    | E : unpack_uint _ _ = Ok _ |- _ => apply unpack_uint_nonneg in E
    | E : choices _ _ _ _ _ = Ok ?r |- _ =>
        destruct r; apply choices_advances in E; cbn [fst snd] in H
    end;
    injection H as <- <-; lia.
Qed.

(** X1.  The scan only moves forward: after [n] turns of the loop the
    position is at least [2 * n] bytes past the start offset. *)
Theorem getstring_scan_moves_forward (n : nat) (raw : list byte) (pos : Z)
    (strings : list text) (p : Z) (strings' : list text) :
  scan n raw pos strings = Some (p, strings') ->
  pos + 2 * Z.of_nat n <= p.
Proof.
  revert pos strings. induction n as [|n IH]; intros pos strings H; simpl in H.
  - injection H as <- <-. lia.
  - destruct (step raw pos strings) as [[[p1 s1]|]|e] eqn:Hstep; try discriminate.
    apply step_advances_by_two in Hstep. apply IH in H. lia.
Qed.

Lemma getstring_scan_moves_forward_witness :
  scan 2 terminated 36 [] = Some (40, [[65]; [66]]) /\ 36 + 2 * 2 <= 40.
Proof.
  split; [run|].
  apply (getstring_scan_moves_forward 2 terminated 36 [] 40 [[65]; [66]]). run.
Defined.

Lemma unpack_uint_raises n bs e : unpack_uint n bs = Raise e -> e = StructError.
Proof.
  unfold unpack_uint. destruct (Nat.eqb _ _); [discriminate|]. now intros [= <-].
Qed.

Lemma code_units_raises (bs : list byte) :
  forall e, code_units bs = Raise e -> e = UnicodeDecodeError.
Proof.
  induction bs as [bs IH] using (well_founded_induction
                                   (Wf_nat.well_founded_ltof _ (@List.length byte))).
  intros e. destruct bs as [|a [|b rest]]; simpl.
  - discriminate.
  - now intros [= <-].
  - destruct (code_units rest) eqn:E; simpl; [discriminate|].
    intros [= <-]. apply (IH rest); [unfold Wf_nat.ltof; simpl; lia|exact E].
Qed.

Lemma code_points_raises (us : list Z) :
  forall e, code_points us = Raise e -> e = UnicodeDecodeError.
Proof.
  induction us as [us IH] using (well_founded_induction
                                   (Wf_nat.well_founded_ltof _ (@List.length Z))).
  intros e. destruct us as [|u rest]; simpl; [discriminate|].
  destruct (is_high u).
  - destruct rest as [|l rest']; [now intros [= <-]|].
    destruct (is_low l); [|now intros [= <-]].
    destruct (code_points rest') eqn:E; simpl; [discriminate|].
    intros [= <-]. apply (IH rest'); [unfold Wf_nat.ltof; simpl; lia|exact E].
  - destruct (is_low u); [now intros [= <-]|].
    destruct (code_points rest) eqn:E; simpl; [discriminate|].
    intros [= <-]. apply (IH rest); [unfold Wf_nat.ltof; simpl; lia|exact E].
Qed.

Lemma decode_raises (bs : list byte) e :
  decode bs = Raise e -> e = UnicodeDecodeError.
Proof.
  unfold decode. destruct (code_units bs) eqn:E; simpl.
  - apply code_points_raises.
  - intros [= <-]. now apply code_units_raises in E.
Qed.

Lemma choices_raises (raw : list byte) (choice_count : Z) (indices : list nat) :
  forall pos strings e,
    choices raw choice_count indices pos strings = Raise e ->
    e = StructError \/ e = UnicodeDecodeError.
Proof.
  induction indices as [|i rest IH]; intros pos strings e H; simpl in H;
    [discriminate|].
  destruct (unpack_uint 2 _) as [bc|] eqn:Hbc; simpl in H.
  - destruct (decode _) as [s|] eqn:Hd; simpl in H.
    + now apply IH in H.
    + injection H as <-. right. now apply decode_raises in Hd.
  - injection H as <-. left. now apply unpack_uint_raises in Hbc.
Qed.

Lemma step_raises (raw : list byte) (pos : Z) (strings : list text) e :
  step raw pos strings = Raise e ->
  e = StructError \/ e = UnicodeDecodeError.
Proof.
  unfold step. intros H. split_step H; try discriminate;
    injection H as <-;
    repeat match goal with
    | E : unpack_uint _ _ = Raise _ |- _ => apply unpack_uint_raises in E
    | E : decode _ = Raise _ |- _ => apply decode_raises in E
    | E : choices _ _ _ _ _ = Raise _ |- _ => apply choices_raises in E
    end; auto.
Qed.

(** X2.  The only exceptions [getstring] raises are struct.error, on a
    control code whose fields run past the end of the buffer, and
    UnicodeDecodeError, on bytes that are no UTF-16. *)
Theorem getstring_raises_only (fuel : nat) (self : SCR) (offset : Z) (e : exn) :
  getstring fuel self offset = Raised e ->
  e = StructError \/ e = UnicodeDecodeError.
Proof.
  unfold getstring. generalize (@nil text) as strings. revert offset.
  induction fuel as [|fuel IH]; intros pos strings H; simpl in H; [discriminate|].
  destruct (step (raw self) pos strings) as [[[p1 s1]|]|e1] eqn:Hstep.
  - now apply IH in H.
  - discriminate.
  - injection H as <-. now apply step_raises in Hstep.
Qed.

Lemma getstring_raises_only_witness :
  getstring 1 (mkSCR cut_choice 0 0 0) 0 = Raised StructError /\
  (StructError = StructError \/ StructError = UnicodeDecodeError).
Proof.
  split; [run|].
  apply (getstring_raises_only 1 (mkSCR cut_choice 0 0 0) 0). run.
Defined.

(** *** SCR.__init__, load, iterrowbytes *)

Lemma slice_length {A} (l : list A) (a b : Z) :
  0 <= a -> a <= b ->
  Z.of_nat (List.length (slice l a b))
  = Z.min b (Z.of_nat (List.length l)) - Z.min a (Z.of_nat (List.length l)).
Proof.
  intros H0 Hab. rewrite slice_unfold, length_firstn, length_skipn.
  unfold clip.
  destruct (a <? 0) eqn:Ea; [apply Z.ltb_lt in Ea; lia|].
  destruct (b <? 0) eqn:Eb; [apply Z.ltb_lt in Eb; lia|].
  lia.
Qed.

(** A part of a slice that lies inside the list is a slice. *)
Lemma slice_of_slice {A} (l : list A) (a b i j : Z) :
  0 <= a -> b <= Z.of_nat (List.length l) ->
  0 <= i -> i <= j -> a + j <= b ->
  firstn (Z.to_nat (j - i)) (skipn (Z.to_nat i) (slice l a b))
  = slice l (a + i) (a + j).
Proof.
  intros Ha Hb Hi Hij Hj.
  rewrite !slice_inside by lia.
  rewrite skipn_firstn_comm, firstn_firstn, skipn_skipn.
  f_equal; [lia|f_equal; lia].
Qed.

(** X3.  [SCR.__init__] succeeds exactly when the buffer holds the four
    bytes at 0x14 and the twelve bytes of the descriptor they point to; the
    three fields are then the little-endian numbers of the descriptor.  It
    raises struct.error otherwise. *)
Theorem init_reads_descriptor (buffer : list byte) :
  let len := Z.of_nat (List.length buffer) in
  let tio := le_uint (slice buffer 20 24) in
  (len < 24 -> __init__ buffer = Raise StructError) /\
  (24 <= len -> len < tio + 12 -> __init__ buffer = Raise StructError) /\
  (24 <= len -> tio + 12 <= len ->
     __init__ buffer
     = Ok (mkSCR buffer (le_uint (slice buffer tio (tio + 4)))
                        (le_uint (slice buffer (tio + 4) (tio + 8)))
                        (le_uint (slice buffer (tio + 8) (tio + 12))))).
Proof.
  intros len tio. unfold __init__, unpack_uint.
  pose proof (slice_length buffer 20 24 ltac:(lia) ltac:(lia)) as H4.
  fold len in H4. split; [|split].
  - intros Hlen.
    destruct (Nat.eqb (List.length (slice buffer 20 24)) 4) eqn:E; [|reflexivity].
    apply Nat.eqb_eq in E. lia.
  - intros Hlen Htio.
    destruct (Nat.eqb (List.length (slice buffer 20 24)) 4) eqn:E; [|reflexivity].
    cbn [bind]. fold tio.
    pose proof (le_uint_nonneg (slice buffer 20 24)) as Hnn. fold tio in Hnn.
    pose proof (slice_length buffer tio (tio + 12) ltac:(lia) ltac:(lia)) as H12.
    fold len in H12.
    destruct (Nat.eqb (List.length (slice buffer tio (tio + 12))) 12) eqn:E12;
      [|reflexivity].
    apply Nat.eqb_eq in E12. lia.
  - intros Hlen Htio.
    destruct (Nat.eqb (List.length (slice buffer 20 24)) 4) eqn:E;
      [|apply Nat.eqb_neq in E; lia].
    cbn [bind]. fold tio.
    pose proof (le_uint_nonneg (slice buffer 20 24)) as Hnn. fold tio in Hnn.
    pose proof (slice_length buffer tio (tio + 12) ltac:(lia) ltac:(lia)) as H12.
    fold len in H12.
    destruct (Nat.eqb (List.length (slice buffer tio (tio + 12))) 12) eqn:E12;
      [|apply Nat.eqb_neq in E12; lia].
    do 2 f_equal.
    + change (firstn 4 (slice buffer tio (tio + 12)))
        with (firstn (Z.to_nat (4 - 0)) (skipn (Z.to_nat 0) (slice buffer tio (tio + 12)))).
      rewrite slice_of_slice by (fold len; lia). now rewrite Z.add_0_r.
    + change (firstn 4 (skipn 4 (slice buffer tio (tio + 12))))
        with (firstn (Z.to_nat (8 - 4)) (skipn (Z.to_nat 4) (slice buffer tio (tio + 12)))).
      now rewrite slice_of_slice by (fold len; lia).
    + change (firstn 4 (skipn 8 (slice buffer tio (tio + 12))))
        with (firstn (Z.to_nat (12 - 8)) (skipn (Z.to_nat 8) (slice buffer tio (tio + 12)))).
      now rewrite slice_of_slice by (fold len; lia).
Qed.

Lemma init_reads_descriptor_witness :
  __init__ full_table = Ok (mkSCR full_table 2 4 36) /\
  __init__ (firstn 30 full_table) = Raise StructError.
Proof.
  split.
  - apply (proj2 (proj2 (init_reads_descriptor full_table))); vm_compute; discriminate.
  - apply (proj1 (proj2 (init_reads_descriptor (firstn 30 full_table))));
      [vm_compute; discriminate | reflexivity].
Defined.

(** X4.  A file with sixteen bytes before the magic loads as the file
    without them does, whatever the sixteen bytes are, unless they begin
    with the magic themselves. *)
Theorem load_skips_prefix (pre body : list byte) :
  List.length pre = 16%nat ->
  firstn 4 pre <> magic ->
  firstn 4 body = magic ->
  load (pre ++ body) = load body /\ load body = __init__ body.
Proof.
  intros Hlen Hpre Hbody.
  assert (H4 : firstn 4 (pre ++ body) = firstn 4 pre).
  { rewrite firstn_app, Hlen. simpl (4 - 16)%nat. simpl firstn at 2.
    apply app_nil_r. }
  assert (H16 : skipn 16 (pre ++ body) = body).
  { rewrite skipn_app, Hlen, Nat.sub_diag, skipn_all2 by lia. reflexivity. }
  unfold load. rewrite H4, H16.
  apply bytes_eqb_neq in Hpre. apply bytes_eqb_eq in Hbody.
  now rewrite Hpre, Hbody.
Qed.

Lemma load_skips_prefix_witness :
  load prefixed = load full_table /\ load full_table = __init__ full_table.
Proof.
  apply (load_skips_prefix (repeat x07 16) full_table);
    [reflexivity | vm_compute; discriminate | reflexivity].
Defined.

Lemma firstn_add {A} (a b : nat) (l : list A) :
  firstn (a + b) l = firstn a l ++ firstn b (skipn a l).
Proof.
  revert l. induction a as [|a IH]; intros l; simpl; [reflexivity|].
  destruct l as [|x l]; simpl.
  - now rewrite firstn_nil.
  - now rewrite IH.
Qed.

Lemma windows_concat {A} (l : list A) (start width : nat) (n : nat) :
  List.concat (map (fun i => firstn width (skipn (start + i * width) l)) (seq 0 n))
  = firstn (n * width) (skipn start l).
Proof.
  induction n as [|n IH].
  - reflexivity.
  - rewrite seq_S, map_app, concat_app, IH. cbn [map Nat.add].
    rewrite concat_cons, concat_nil, app_nil_r.
    replace (S n * width)%nat with (n * width + width)%nat by lia.
    rewrite firstn_add, skipn_skipn.
    do 3 f_equal. lia.
Qed.

(** X5.  When the table lies inside the buffer, the windows of
    [iterrowbytes], one after another, are the bytes of the table: the
    slice from [table_offset] to [table_offset + row_count * row_length]. *)
Theorem iterrowbytes_tiles_table (buffer : list byte) (self : SCR) :
  __init__ buffer = Ok self ->
  table_offset self + row_count self * row_length self
    <= Z.of_nat (List.length buffer) ->
  List.concat (iterrowbytes self)
  = slice buffer (table_offset self)
          (table_offset self + row_count self * row_length self).
Proof.
  intros Hinit Hin. destruct (init_fields _ _ Hinit) as (Hraw & Hc & Hl & Ho).
  rewrite slice_inside by nia.
  replace (table_offset self + row_count self * row_length self - table_offset self)
    with (row_count self * row_length self) by lia.
  rewrite Z2Nat.inj_mul by lia.
  rewrite <- windows_concat. unfold iterrowbytes. f_equal.
  apply map_ext_in. intros i Hi. apply in_seq in Hi. rewrite Hraw.
  rewrite slice_inside by nia. f_equal; [f_equal; lia|].
  f_equal. rewrite Z2Nat.inj_add, Z2Nat.inj_mul, Nat2Z.id by lia. reflexivity.
Qed.

Lemma iterrowbytes_tiles_table_witness :
  List.concat (iterrowbytes (mkSCR full_table 2 4 36))
  = slice full_table 36 (36 + 2 * 4).
Proof.
  apply (iterrowbytes_tiles_table full_table (mkSCR full_table 2 4 36));
    [run | vm_compute; discriminate].
Defined.

(** *** getstring: the option loop, plain text *)

Lemma choice_end_run (raw : list byte) (limit : Z) (n : nat) :
  forall cep,
    exists k,
      (k <= n)%nat /\
      choice_end raw limit n cep = cep + 2 * Z.of_nat k /\
      ((k < n)%nat ->
         limit <= cep + 2 * Z.of_nat k \/
         slice raw (cep + 2 * Z.of_nat k) (cep + 2 * Z.of_nat k + 2) = [x00; x00]) /\
      forall j, (j < k)%nat ->
        cep + 2 * Z.of_nat j < limit /\
        slice raw (cep + 2 * Z.of_nat j) (cep + 2 * Z.of_nat j + 2) <> [x00; x00].
Proof.
  induction n as [|n IH]; intros cep.
  - exists O. split; [lia|]. split; [simpl; lia|]. split; intros; lia.
  - cbn [choice_end].
    destruct (cep <? limit) eqn:Elt; cbn [andb].
    + destruct (bytes_eqb (slice raw cep (cep + 2)) [x00; x00]) eqn:Enull; cbn [negb].
      * exists O. rewrite Z.add_0_r.
        split; [lia|]. split; [reflexivity|]. split; [|intros; lia].
        intros _. right. now apply bytes_eqb_eq.
      * destruct (IH (cep + 2)) as (k & Hk & Hr & Hexit & Hrun).
        exists (S k). split; [lia|]. split; [rewrite Hr; lia|]. split.
        -- intros HSk.
           replace (cep + 2 * Z.of_nat (S k)) with (cep + 2 + 2 * Z.of_nat k) by lia.
           apply Hexit. lia.
        -- intros j Hj. destruct j as [|j].
           ++ rewrite Z.add_0_r. split; [now apply Z.ltb_lt|now apply bytes_eqb_neq].
           ++ replace (cep + 2 * Z.of_nat (S j)) with (cep + 2 + 2 * Z.of_nat j) by lia.
              apply Hrun. lia.
    + exists O. rewrite Z.add_0_r.
      split; [lia|]. split; [reflexivity|]. split; [|intros; lia].
      intros _. left. now apply Z.ltb_ge.
Qed.

(** X6.  The text of a choice option ends at the first null code unit
    among the code-unit positions of its declared [byte_count] bytes, or
    after them when there is none: the bounded recursion of the model
    stops where the [while] of the source does. *)
Theorem choice_end_stops_where_the_loop_does (raw : list byte)
    (pos byte_count : Z) :
  0 <= byte_count ->
  exists k,
    choice_end raw (pos + 8 + byte_count) (Z.to_nat ((byte_count + 1) / 2)) (pos + 8)
      = pos + 8 + 2 * Z.of_nat k /\
    (pos + 8 + byte_count <= pos + 8 + 2 * Z.of_nat k \/
     slice raw (pos + 8 + 2 * Z.of_nat k) (pos + 8 + 2 * Z.of_nat k + 2)
       = [x00; x00]) /\
    forall j, (j < k)%nat ->
      pos + 8 + 2 * Z.of_nat j < pos + 8 + byte_count /\
      slice raw (pos + 8 + 2 * Z.of_nat j) (pos + 8 + 2 * Z.of_nat j + 2)
        <> [x00; x00].
Proof.
  intros Hbc.
  destruct (choice_end_run raw (pos + 8 + byte_count)
              (Z.to_nat ((byte_count + 1) / 2)) (pos + 8))
    as (k & Hk & Hr & Hexit & Hrun).
  exists k. split; [exact Hr|]. split; [|exact Hrun].
  destruct (Nat.eq_dec k (Z.to_nat ((byte_count + 1) / 2))) as [->|Hne].
  - left. rewrite Z2Nat.id by (apply Z.div_pos; lia).
    pose proof (Z.div_mod (byte_count + 1) 2 ltac:(lia)).
    pose proof (Z.mod_pos_bound (byte_count + 1) 2 ltac:(lia)). lia.
  - apply Hexit. lia.
Qed.

Lemma choice_end_stops_where_the_loop_does_witness :
  choice_end option_text (0 + 8 + 6) (Z.to_nat ((6 + 1) / 2)) (0 + 8) = 10 /\
  exists k,
    choice_end option_text (0 + 8 + 6) (Z.to_nat ((6 + 1) / 2)) (0 + 8)
      = 0 + 8 + 2 * Z.of_nat k /\
    (0 + 8 + 6 <= 0 + 8 + 2 * Z.of_nat k \/
     slice option_text (0 + 8 + 2 * Z.of_nat k) (0 + 8 + 2 * Z.of_nat k + 2)
       = [x00; x00]) /\
    forall j, (j < k)%nat ->
      0 + 8 + 2 * Z.of_nat j < 0 + 8 + 6 /\
      slice option_text (0 + 8 + 2 * Z.of_nat j) (0 + 8 + 2 * Z.of_nat j + 2)
        <> [x00; x00].
Proof.
  split; [run|].
  apply (choice_end_stops_where_the_loop_does option_text 0 6).
  discriminate.
Defined.

Lemma byte_val_of_Z (z : Z) : byte_val (byte_of_Z z) = z mod 256.
Proof.
  unfold byte_val, byte_of_Z.
  pose proof (Z.mod_pos_bound z 256 ltac:(lia)) as Hm.
  destruct (Byte.of_N (Z.to_N (z mod 256))) as [b|] eqn:E.
  - apply Byte.to_of_N in E. rewrite E. lia.
  - apply Byte.of_N_None_iff in E. lia.
Qed.

Lemma slice_after_prefix {A} (pre l : list A) (k : Z) :
  0 <= k ->
  slice (pre ++ l) (Z.of_nat (List.length pre)) (Z.of_nat (List.length pre) + k)
  = firstn (Z.to_nat k) l.
Proof.
  intros Hk. rewrite slice_unfold, length_app. unfold clip.
  destruct (Z.of_nat (List.length pre) <? 0) eqn:E1; [apply Z.ltb_lt in E1; lia|].
  destruct (Z.of_nat (List.length pre) + k <? 0) eqn:E2; [apply Z.ltb_lt in E2; lia|].
  rewrite (Z.min_l (Z.of_nat (List.length pre))) by lia.
  rewrite Nat2Z.id, skipn_app, skipn_all, Nat.sub_diag. simpl skipn. simpl app.
  destruct (Z.le_gt_cases k (Z.of_nat (List.length l))) as [Hle|Hgt].
  - rewrite Z.min_l by lia. f_equal. lia.
  - rewrite Z.min_r by lia.
    rewrite !firstn_all2; [reflexivity|lia|lia].
Qed.

(** One plain code unit at the scan position is appended as it is. *)
Lemma step_plain_unit (pre rest : list byte) (u : Z) (strings : list text) :
  plain_unit u = true ->
  step (pre ++ utf16le [u] ++ rest) (Z.of_nat (List.length pre)) strings
  = Ok (Some (Z.of_nat (List.length pre) + 2, strings ++ [[u]])).
Proof.
  intros Hp. unfold plain_unit in Hp.
  apply andb_prop in Hp. destruct Hp as [Hp Hsur].
  apply andb_prop in Hp. destruct Hp as [Hpos Hlt].
  apply Z.ltb_lt in Hpos. apply Z.ltb_lt in Hlt.
  apply negb_true_iff in Hsur. apply orb_false_iff in Hsur. destruct Hsur as [Hhi Hlo].
  cbn [utf16le flat_map app].
  set (b0 := byte_of_Z u). set (b1 := byte_of_Z (u / 256)).
  assert (Hv0 : byte_val b0 = u mod 256) by apply byte_val_of_Z.
  assert (Hv1 : byte_val b1 = u / 256).
  { unfold b1. rewrite byte_val_of_Z. apply Z.mod_small.
    split; [apply Z.div_pos; lia|apply Z.div_lt_upper_bound; lia]. }
  assert (Hu : byte_val b0 + 256 * byte_val b1 = u).
  { rewrite Hv0, Hv1. pose proof (Z.div_mod u 256 ltac:(lia)). lia. }
  assert (Hb1 : b1 <> xff).
  { intros E. rewrite E in Hv1. change (byte_val xff) with 255 in Hv1.
    assert (u / 256 < 255) by (apply Z.div_lt_upper_bound; lia). lia. }
  unfold step.
  rewrite (slice_after_prefix pre (b0 :: b1 :: rest) 4) by lia.
  rewrite (slice_after_prefix pre (b0 :: b1 :: rest) 2) by lia.
  change (firstn (Z.to_nat 4) (b0 :: b1 :: rest)) with (b0 :: b1 :: firstn 2 rest).
  change (firstn (Z.to_nat 2) (b0 :: b1 :: rest)) with [b0; b1].
  assert (Hsent : forall b, bytes_eqb (b0 :: b1 :: firstn 2 rest) (sentinel b) = false).
  { intros b. apply bytes_eqb_neq. unfold sentinel. intros E. injection E as _ E _.
    contradiction. }
  rewrite !Hsent.
  assert (Hff : bytes_eqb [b0; b1] [xff; xff] = false).
  { apply bytes_eqb_neq. intros E. injection E as _ E. contradiction. }
  assert (Hnull : bytes_eqb [b0; b1] [x00; x00] = false).
  { apply bytes_eqb_neq. intros E. injection E as E0 E1.
    rewrite E0, E1 in Hu. change (byte_val x00) with 0 in Hu. lia. }
  rewrite Hff, Hnull. cbn [negb].
  unfold decode. cbn [code_units bind code_points]. rewrite Hu, Hhi, Hlo.
  reflexivity.
Qed.

Lemma getstring_loop_plain_run (units : list Z) :
  forall pre post strings fuel,
    forallb plain_unit units = true ->
    (List.length units < fuel)%nat ->
    getstring_loop fuel (pre ++ utf16le units ++ [x00; x00] ++ post)
                   (Z.of_nat (List.length pre)) strings
    = Returned (List.concat strings ++ units).
Proof.
  induction units as [|u units IH]; intros pre post strings fuel Hplain Hfuel.
  - destruct fuel as [|fuel]; [simpl in Hfuel; lia|].
    cbn [getstring_loop utf16le flat_map app].
    assert (Hbrk : step (pre ++ x00 :: x00 :: post) (Z.of_nat (List.length pre)) strings
                   = Ok None).
    { apply step_break_iff.
      now rewrite (slice_after_prefix pre (x00 :: x00 :: post) 2) by lia. }
    rewrite Hbrk. now rewrite app_nil_r.
  - destruct fuel as [|fuel]; [simpl in Hfuel; lia|].
    cbn [forallb] in Hplain. apply andb_prop in Hplain. destruct Hplain as [Hu Hrest].
    cbn [getstring_loop].
    change (utf16le (u :: units)) with (utf16le [u] ++ utf16le units).
    rewrite <- (app_assoc (utf16le [u])).
    rewrite step_plain_unit by assumption.
    specialize (IH (pre ++ utf16le [u]) post (strings ++ [[u]]) fuel Hrest).
    rewrite length_app in IH. cbn [utf16le flat_map app List.length] in IH.
    rewrite Nat2Z.inj_add in IH. cbn [utf16le flat_map app] in *.
    rewrite <- app_assoc in IH. cbn [app] in IH.
    change (Z.of_nat 2) with 2 in IH.
    rewrite IH by (simpl in Hfuel; lia).
    rewrite concat_app. cbn [List.concat app]. now rewrite <- app_assoc.
Qed.

(** X7.  Plain text round trip: for code units that are not null, no
    surrogates and below 0xFF00, [getstring] at the start of their UTF-16LE
    bytes followed by a null code unit returns exactly these code units,
    whatever comes before and after in the buffer. *)
Theorem getstring_decodes_plain_text (self : SCR) (pre post : list byte)
    (units : list Z) (fuel : nat) :
  raw self = pre ++ utf16le units ++ [x00; x00] ++ post ->
  forallb plain_unit units = true ->
  (List.length units < fuel)%nat ->
  getstring fuel self (Z.of_nat (List.length pre)) = Returned units.
Proof.
  intros Hraw Hplain Hfuel. unfold getstring. rewrite Hraw.
  now rewrite getstring_loop_plain_run.
Qed.

Lemma getstring_decodes_plain_text_witness :
  getstring 3 (mkSCR greeting 2 4 36) 36 = Returned [72; 105].
Proof.
  apply (getstring_decodes_plain_text (mkSCR greeting 2 4 36) header [x2a] [72; 105] 3);
    [reflexivity | reflexivity | repeat constructor].
Defined.

(** *** tolines *)

Lemma tolines_loop_default (fuel : nat) (self : SCR) (column_count table_offset : Z)
    (indices : list nat) :
  tolines_loop fuel self None [] column_count table_offset indices
  = Dumped
      (map (fun row_index =>
              let local_offset := table_offset + Z.of_nat row_index * column_count in
              join tab
                ([ustr ("0x" ++ format_hex 8 local_offset);
                  ustr ("0x" ++ format_hex 4 (Z.of_nat row_index))]
                 ++ map (fun b => ustr (format_hex 2 (byte_val b)))
                        (slice (raw self) local_offset (local_offset + column_count))))
           indices).
Proof.
  induction indices as [|i rest IH]; [reflexivity|].
  cbn [tolines_loop map]. rewrite IH. reflexivity.
Qed.

Lemma combine_seq_map {A} (f : nat -> A) (l : list nat) :
  combine l (map f l) = map (fun i => (i, f i)) l.
Proof. induction l as [|i l IH]; simpl; [reflexivity|now rewrite IH]. Qed.

(** X8.  The default dump, [tolines()] without a struct format and without
    string offsets, of a parsed container: one line per window of
    [iterrowbytes], in order, made of the offset of the row in eight
    hexadecimal digits, its index in four, and two digits for each byte of
    the window, joined by tabs.  It neither raises nor runs on. *)
Theorem tolines_dumps_the_windows (fuel : nat) (buffer : list byte) (self : SCR) :
  __init__ buffer = Ok self ->
  tolines fuel self None []
  = Dumped
      (map (fun iw : nat * list byte =>
              join tab
                ([ustr ("0x" ++ format_hex 8
                                  (table_offset self + Z.of_nat (fst iw) * row_length self));
                  ustr ("0x" ++ format_hex 4 (Z.of_nat (fst iw)))]
                 ++ map (fun b => ustr (format_hex 2 (byte_val b))) (snd iw)))
           (combine (seq 0 (Z.to_nat (row_count self))) (iterrowbytes self))).
Proof.
  intros Hinit. unfold tolines.
  pose proof (init_fields _ _ Hinit) as (Hraw & _).
  unfold __init__ in Hinit. rewrite Hraw.
  destruct (unpack_uint 4 (slice buffer 20 24)) as [tio|]; [|discriminate].
  cbn [bind] in Hinit.
  destruct (Nat.eqb _ 12); [|discriminate].
  injection Hinit as <-. cbn [raw row_count row_length table_offset].
  rewrite tolines_loop_default. unfold iterrowbytes.
  cbn [raw row_count row_length table_offset].
  rewrite combine_seq_map, map_map. reflexivity.
Qed.

Lemma tolines_dumps_the_windows_witness :
  tolines 0 (mkSCR full_table 2 4 36) None []
  = Dumped [ustr "0x00000024" ++ tab ++ ustr "0x0000" ++ tab ++ ustr "01" ++ tab
              ++ ustr "02" ++ tab ++ ustr "03" ++ tab ++ ustr "04";
            ustr "0x00000028" ++ tab ++ ustr "0x0001" ++ tab ++ ustr "05" ++ tab
              ++ ustr "06" ++ tab ++ ustr "07" ++ tab ++ ustr "08"].
Proof.
  rewrite (tolines_dumps_the_windows 0 full_table (mkSCR full_table 2 4 36)) by run.
  run.
Defined.

(** ** Further properties of table.py *)

(** *** feed: bit fields *)

Lemma bit_extract_value (e : Z) (bc : BitColumn) :
  0 <= b_offset bc -> 0 <= b_length bc ->
  bit_extract (VInt e) bc
  = Ok (VInt ((e / 2 ^ b_offset bc) mod 2 ^ b_length bc)).
Proof.
  intros Ho Hl. unfold bit_extract.
  destruct (b_offset bc <? 0) eqn:Eo; [apply Z.ltb_lt in Eo; lia|].
  destruct (b_length bc <? 0) eqn:El; [apply Z.ltb_lt in El; lia|].
  cbn [orb]. do 2 f_equal.
  rewrite Z.sub_1_r. change (Z.pred (Z.shiftl 1 (b_length bc))) with (Z.ones (b_length bc)).
  now rewrite Z.land_ones, Z.shiftr_div_pow2 by assumption.
Qed.

Lemma mapM_bit_extract (e : Z) (bitcolumns : list BitColumn) :
  Forall (fun bc => 0 <= b_offset bc /\ 0 <= b_length bc) bitcolumns ->
  mapM (bit_extract (VInt e)) bitcolumns
  = Ok (map (fun bc => VInt ((e / 2 ^ b_offset bc) mod 2 ^ b_length bc)) bitcolumns).
Proof.
  induction 1 as [|bc rest [Ho Hl] _ IH]; [reflexivity|].
  cbn [mapM map]. rewrite bit_extract_value, IH by assumption. reflexivity.
Qed.

Lemma mapM_bit_extract_negative (e : Z) (bitcolumns : list BitColumn) :
  Exists (fun bc => b_offset bc < 0 \/ b_length bc < 0) bitcolumns ->
  mapM (bit_extract (VInt e)) bitcolumns = Raise ValueError.
Proof.
  induction bitcolumns as [|bc rest IH]; intros Hex; [inversion Hex|].
  cbn [mapM]. unfold bit_extract at 1.
  destruct ((b_offset bc <? 0) || (b_length bc <? 0)) eqn:E; [reflexivity|].
  cbn [bind]. rewrite IH; [reflexivity|].
  inversion Hex as [? ? Hneg|? ? Hrest]; subst; [|exact Hrest].
  apply orb_false_iff in E. destruct E as [Eo El].
  apply Z.ltb_ge in Eo. apply Z.ltb_ge in El. lia.
Qed.

(** X9.  A bit column of raw value [e] gives the row that value and, for
    each sub-field, the number made of the [length] bits of [e] from bit
    [offset] on, [(e / 2^offset) mod 2^length], which lies in
    [0, 2^length); a negative offset or length of a sub-field makes [feed]
    raise ValueError. *)
Theorem feed_bit_column (hook : hook_t) (info : Column) (e : Z)
    (bitcolumns : list BitColumn) :
  startswith (c_type info) "bit" = true ->
  c_columns info = Some bitcolumns ->
  (Forall (fun bc => 0 <= b_offset bc /\ 0 <= b_length bc) bitcolumns ->
     feed_column hook info (VInt e)
     = Ok (VInt e :: map (fun bc => VInt ((e / 2 ^ b_offset bc) mod 2 ^ b_length bc))
                         bitcolumns) /\
     forall bc, In bc bitcolumns ->
       0 <= (e / 2 ^ b_offset bc) mod 2 ^ b_length bc < 2 ^ b_length bc) /\
  (Exists (fun bc => b_offset bc < 0 \/ b_length bc < 0) bitcolumns ->
     feed_column hook info (VInt e) = Raise ValueError).
Proof.
  intros Hbit Hcols.
  assert (Hstr : String.eqb (c_type info) "str" = false).
  { destruct (String.eqb (c_type info) "str") eqn:E; [|reflexivity].
    apply str_is_no_bit in E. congruence. }
  unfold feed_column. rewrite Hstr, Hbit, Hcols. cbn [getkey bind]. split.
  - intros Hall. split.
    + now rewrite mapM_bit_extract.
    + intros bc Hin. rewrite Forall_forall in Hall. destruct (Hall bc Hin) as [_ Hl].
      apply Z.mod_pos_bound. now apply Z.pow_pos_nonneg.
  - intros Hex. now rewrite mapM_bit_extract_negative.
Qed.

Lemma feed_bit_column_witness :
  feed_column None flags (VInt 33) = Ok [VInt 33; VInt 1; VInt 2].
Proof.
  apply (proj1 (proj1 (feed_bit_column None flags 33
                         [mkBitColumn "lo" 0 4; mkBitColumn "hi" 4 4]
                         eq_refl eq_refl)
                  ltac:(repeat constructor; discriminate))).
Defined.

(** *** tobytes *)

(** X10.  [tobytes] raises AttributeError on every row whose class has at
    least one column or gap, whatever the row holds: the first thing each
    turn of its loop evaluates is [self.__getattr__]. *)
Theorem tobytes_raises_on_every_column (self : Row) :
  columns (row_class self) <> [] ->
  tobytes self = Raise (AttributeError "__getattr__").
Proof.
  intros Hne. unfold tobytes, tobytes_with.
  destruct (columns (row_class self)) as [|c rest]; [contradiction|].
  cbn [mapM]. unfold tobytes_column, dunder_getattr.
  now destruct (startswith (c_type c) "bit").
Qed.

Lemma tobytes_raises_on_every_column_witness :
  tobytes (mkRow cls_two_fields
                 [VBytes [x01]; VInt 2; VBytes [x03; x04]; VInt 1541; VBytes [x07; x08]])
  = Raise (AttributeError "__getattr__").
Proof.
  apply tobytes_raises_on_every_column. discriminate.
Defined.

(** *** newrowclass: missing keys and kinds *)




(** *** newrowclass: the size of the struct *)






(** *** feed: one value per field name *)

Lemma width_app (a b : list Column) :
  fold_right (fun c n => (data_width c + n)%nat) 0%nat (a ++ b)
  = (fold_right (fun c n => (data_width c + n)%nat) 0%nat a
     + fold_right (fun c n => (data_width c + n)%nat) 0%nat b)%nat.
Proof. rewrite fold_right_app. induction a as [|c a IH]; simpl; lia. Qed.

(** What one turn of the loop appends to [columns]. *)
Lemma compile_column_names (st st1 : loopstate) (c : Column) :
  compile_column st c = Ok st1 ->
  is_some (c_name c) = true /\
  List.length (column_names c) = data_width c /\
  l_columns st1
  = l_columns st
    ++ (if c_off c >? l_gapstart st
        then [("c" ++ format_int (l_gapstart st))%string] else [])
    ++ column_names c /\
  l_newtableinfo st1
  = l_newtableinfo st ++ (if c_off c >? l_gapstart st then [gap] else []) ++ [c].
Proof.
  unfold compile_column, c_off, column_names, data_width.
  destruct (c_offset c) as [offset|]; cbn [bind getkey]; [|discriminate].
  destruct (c_name c) as [name|]; cbn [bind getkey]; [|discriminate].
  destruct (startswith (c_type c) "bit").
  - destruct (c_columns c) as [bcs|]; cbn [bind getkey]; [|discriminate].
    destruct (getitem types (c_type c)); cbn [bind]; [|discriminate].
    intros [= <-]. cbn [l_columns l_newtableinfo is_some].
    split; [reflexivity|]. split; [cbn [List.length]; now rewrite length_map|].
    destruct (offset >? l_gapstart st);
      cbn [add_gap l_columns l_newtableinfo app]; now rewrite <- ?app_assoc.
  - cbn [bind].
    destruct (getitem types (c_type c)); cbn [bind]; [|discriminate].
    intros [= <-]. cbn [l_columns l_newtableinfo is_some].
    split; [reflexivity|]. split; [reflexivity|].
    destruct (offset >? l_gapstart st);
      cbn [add_gap l_columns l_newtableinfo app]; now rewrite <- ?app_assoc.
Qed.

Lemma compile_columns_width (cols : list Column) :
  forall st st',
    compile_columns st cols = Ok st' ->
    List.length (l_columns st)
      = fold_right (fun c n => (data_width c + n)%nat) 0%nat (l_newtableinfo st) ->
    List.length (l_columns st')
      = fold_right (fun c n => (data_width c + n)%nat) 0%nat (l_newtableinfo st').
Proof.
  induction cols as [|c cols IH]; intros st st' H Hinv; simpl in H.
  - now injection H as <-.
  - destruct (compile_column st c) as [st1|] eqn:Hc; simpl in H; [|discriminate].
    apply (IH _ _ H).
    destruct (compile_column_names _ _ _ Hc) as (_ & Hw & Hn & Ht).
    rewrite Hn, Ht, !length_app, !width_app, Hinv, Hw.
    destruct (c_off c >? l_gapstart st); simpl; lia.
Qed.

Lemma feed_loop_length (hook : hook_t) (cols : list Column) :
  forall rawdata data,
    List.length rawdata = List.length cols ->
    feed_loop hook (combine cols rawdata) = Ok data ->
    List.length data
      = fold_right (fun c n => (data_width c + n)%nat) 0%nat cols.
Proof.
  induction cols as [|c cols IH]; intros rawdata data Hlen H.
  - simpl in H. now injection H as <-.
  - destruct rawdata as [|r rawdata]; [discriminate|].
    simpl in H.
    destruct (feed_column hook c r) as [d|] eqn:Hd; simpl in H; [|discriminate].
    destruct (feed_loop hook (combine cols rawdata)) as [ds|] eqn:Hds;
      simpl in H; [|discriminate].
    injection H as <-. rewrite length_app. cbn [fold_right].
    assert (Hlen' : List.length rawdata = List.length cols)
      by (simpl in Hlen; lia).
    rewrite (feed_column_width _ _ _ _ Hd), (IH _ _ Hlen' Hds).
    reflexivity.
Qed.

Lemma unpack_fields_length (o : byteorder) (fs : list field) :
  forall data, List.length (unpack_fields o fs data) = List.length fs.
Proof. induction fs as [|f fs IH]; intros data; simpl; auto. Qed.

(** X13.  A row decoded with a class from [newrowclass] has one value for
    each field name of the class: [struct] unpacks one element per entry of
    [columns], and the values the entries give are as many as the names
    they gave to the namedtuple, so [_make] never fails and [feed] returns
    whenever its loop over the columns does. *)
Theorem feed_row_matches_field_names (ti : TableInfo) (cls : RowClass)
    (bytes_obj : list byte) (hook : hook_t) (rawdata data : list pyval) :
  newrowclass ti = Ok cls ->
  byte_order_given ti = true ->
  unpack (struct_obj cls) bytes_obj = Ok rawdata ->
  feed_loop hook (combine (columns cls) rawdata) = Ok data ->
  List.length rawdata = List.length (columns cls) /\
  List.length data = List.length (field_names cls) /\
  feed cls bytes_obj hook = Ok (mkRow cls data).
Proof.
  intros Hnew Horder Hun Hloop. unfold newrowclass in Hnew.
  destruct (compile_layout ti) as [st|] eqn:Hlay; cbn [bind] in Hnew; [|discriminate].
  destruct (namedtuple _) as [names|] eqn:Hn; cbn [bind] in Hnew; [|discriminate].
  destruct (compile_layout_reads _ _ Hlay) as (sfx & fs & Hstr & Hreads & Hlen).
  destruct (Struct_new_reads _ _ _ Hreads (byte_order_prefix ti Horder)) as (o & Hs & _).
  rewrite <- Hstr in Hs. rewrite Hs in Hnew. cbn [bind] in Hnew.
  injection Hnew as <-.
  cbn [struct_obj columns field_names] in *.
  assert (Hnames : names = l_columns st).
  { unfold namedtuple in Hn. destruct (_ && _); [|discriminate]. now injection Hn. }
  assert (Hwidth : List.length (l_columns st)
                   = fold_right (fun c n => (data_width c + n)%nat) 0%nat
                                (l_newtableinfo st)).
  { unfold compile_layout in Hlay.
    destruct (compile_columns _ _) as [st0|] eqn:Hc; cbn [bind] in Hlay; [|discriminate].
    injection Hlay as <-.
    pose proof (compile_columns_width _ _ _ Hc eq_refl) as Hw.
    destruct (l_gapstart st0 <? ti_row_length ti); [|exact Hw].
    cbn [add_gap l_columns l_newtableinfo].
    rewrite length_app, width_app, Hw. reflexivity. }
  assert (Hraw : List.length rawdata = List.length (l_newtableinfo st)).
  { unfold unpack in Hun. cbn [fields order] in Hun.
    destruct (Nat.eqb _ _); [|discriminate]. injection Hun as <-.
    now rewrite unpack_fields_length. }
  pose proof (feed_loop_length _ _ _ _ Hraw Hloop) as Hdata.
  split; [exact Hraw|]. split; [rewrite Hnames; congruence|].
  unfold feed. cbn [struct_obj columns]. rewrite Hun. cbn [bind].
  rewrite Hloop. cbn [bind]. unfold _make. cbn [field_names].
  assert (E : Nat.eqb (List.length data) (List.length names) = true).
  { apply Nat.eqb_eq. rewrite Hnames. congruence. }
  now rewrite E.
Qed.

Lemma feed_row_matches_field_names_witness :
  feed cls_name_ref [x21; x01; x02; x03; x04] None
  = Ok (mkRow cls_name_ref [VInt 33; VInt 1; VInt 2; VInt 67305985]).
Proof.
  apply (feed_row_matches_field_names ti_name_ref cls_name_ref
           [x21; x01; x02; x03; x04] None [VInt 33; VInt 67305985]
           [VInt 33; VInt 1; VInt 2; VInt 67305985]); run.
Defined.

(** *** newrowclass: the field names *)




(** ** Properties of arc.py *)

Lemma mapM_ok_in {A B} (f : A -> result B) (l : list A) :
  forall bs,
    mapM f l = Ok bs ->
    (forall a, In a l -> exists b, f a = Ok b) /\
    (forall b, In b bs -> exists a, In a l /\ f a = Ok b).
Proof.
  induction l as [|a l IH]; intros bs H; simpl in H.
  - injection H as <-. split; intros ? [].
  - destruct (f a) as [b|] eqn:Hb; simpl in H; [|discriminate].
    destruct (mapM f l) as [bs'|] eqn:Hl; simpl in H; [|discriminate].
    injection H as <-. destruct (IH _ eq_refl) as [H1 H2]. split.
    + intros a' [<-|Hin]; [eauto|now apply H1].
    + intros b' [<-|Hin]; [exists a; split; [now left|assumption]|].
      destruct (H2 _ Hin) as (a' & Ha' & Hf). exists a'. split; [now right|assumption].
Qed.

Lemma read_at_length (file : list byte) (offset n : Z) :
  Z.of_nat (List.length (Arc.read_at file offset n)) <= Z.max 0 n.
Proof.
  unfold Arc.read_at. rewrite length_firstn. lia.
Qed.

Lemma decode_ascii_length (bs : list byte) :
  forall s, Arc.decode_ascii bs = Ok s -> String.length s = List.length bs.
Proof.
  induction bs as [|b bs IH]; intros s H; simpl in H.
  - now injection H as <-.
  - destruct (byte_val b <? 128); [|discriminate].
    destruct (Arc.decode_ascii bs) as [s'|]; simpl in H; [|discriminate].
    injection H as <-. simpl. now rewrite (IH _ eq_refl).
Qed.

Lemma le_uint_bound (bs : list byte) :
  0 <= le_uint bs < 256 ^ Z.of_nat (List.length bs).
Proof.
  induction bs as [|b bs IH]; cbn [le_uint List.length].
  - simpl. lia.
  - rewrite Nat2Z.inj_succ, Z.pow_succ_r by lia.
    pose proof (byte_val_range b). lia.
Qed.

Lemma header_field (file : list byte) :
  firstn 4 (skipn 12 (firstn 16 (skipn 4 file))) = firstn 4 (skipn 16 file).
Proof.
  rewrite skipn_firstn_comm, firstn_firstn, skipn_skipn. reflexivity.
Qed.

(** X15.  An archive that [Arc.__init__] accepts begins with the magic, is
    [0x14 + data_length] bytes long, and from the offset in its header to
    its end holds whole entries of 20 bytes, one for each file entry of the
    result. *)
Theorem arc_accepts_whole_archives (file : list byte) (self : Arc.Arc) :
  Arc.__init__ file = Arc.Got self ->
  Arc.file self = file /\
  firstn 4 file = Arc.MAGIC /\
  Z.of_nat (List.length file) = 20 + Arc.data_length self /\
  Arc.data_length self = le_uint (firstn 4 (skipn 4 file)) /\
  List.length (skipn (Z.to_nat (le_uint (firstn 4 (skipn 16 file)))) file)
  = (20 * Arc.file_count self)%nat.
Proof.
  unfold Arc.__init__. rewrite header_field.
  set (header := firstn 16 (skipn 4 file)).
  set (rfe := skipn (Z.to_nat (le_uint (firstn 4 (skipn 16 file)))) file).
  assert (Hdl : le_uint (firstn 4 header) = le_uint (firstn 4 (skipn 4 file)))
    by (unfold header; now rewrite firstn_firstn).
  destruct (bytes_eqb (firstn 4 file) Arc.MAGIC) eqn:Emagic; cbn [negb]; [|discriminate].
  destruct (List.length file <? 20)%nat eqn:Esize; [discriminate|].
  destruct (20 + le_uint (firstn 4 header) =? Z.of_nat (List.length file)) eqn:Elen;
    cbn [negb]; [|discriminate].
  destruct (mapM (Arc.read_entry file rfe) (Arc.entry_offsets (List.length rfe)))
    as [entries|] eqn:Hm; [|discriminate].
  intros Hself.
  assert (Hrec : self = Arc.mkArc file (le_uint (firstn 4 header))
                          (le_uint (firstn 4 (skipn 4 header)))
                          (le_uint (firstn 4 (skipn 8 header))) entries)
    by congruence.
  rewrite Hrec. unfold Arc.file_count, Arc.file, Arc.data_length, Arc.file_entries.
  apply Z.eqb_eq in Elen. apply bytes_eqb_eq in Emagic.
  split; [reflexivity|]. split; [exact Emagic|]. split; [lia|].
  split; [exact Hdl|].
  pose proof (mapM_length _ _ _ Hm) as Hcount.
  unfold Arc.entry_offsets in Hcount. rewrite length_map, length_seq in Hcount.
  rewrite Hcount.
  destruct ((List.length rfe + 19) / 20)%nat as [|k] eqn:Hk.
  - pose proof (Nat.div_mod_eq (List.length rfe + 19) 20).
    pose proof (Nat.mod_upper_bound (List.length rfe + 19) 20). lia.
  - destruct (proj1 (mapM_ok_in _ _ _ Hm) (20 * Z.of_nat k)) as [entry Hentry].
    { unfold Arc.entry_offsets. rewrite Hk. apply in_map_iff. exists k.
      split; [reflexivity|]. apply in_seq. lia. }
    unfold Arc.read_entry in Hentry.
    destruct (Nat.eqb (List.length (slice rfe (20 * Z.of_nat k) (20 * Z.of_nat k + 20))) 20)
      eqn:Echunk; [|discriminate].
    apply Nat.eqb_eq in Echunk.
    pose proof (slice_length rfe (20 * Z.of_nat k) (20 * Z.of_nat k + 20)
                  ltac:(lia) ltac:(lia)) as Hsl.
    pose proof (Nat.div_mod_eq (List.length rfe + 19) 20).
    pose proof (Nat.mod_upper_bound (List.length rfe + 19) 20). lia.
Qed.

Lemma arc_accepts_whole_archives_witness :
  Arc.__init__ archive = Arc.Got (Arc.mkArc archive 28 0 0 [archive_entry]) /\
  List.length (skipn 28 archive) = 20%nat.
Proof.
  split; [run|].
  apply (arc_accepts_whole_archives archive (Arc.mkArc archive 28 0 0 [archive_entry])).
  run.
Defined.

Lemma le_uint_firstn_bound (n : nat) (bs : list byte) :
  0 <= le_uint (firstn n bs) < 256 ^ Z.of_nat n.
Proof.
  pose proof (le_uint_bound (firstn n bs)) as H.
  assert (Hn : (List.length (firstn n bs) <= n)%nat) by (rewrite length_firstn; lia).
  assert (256 ^ Z.of_nat (List.length (firstn n bs)) <= 256 ^ Z.of_nat n)
    by (apply Z.pow_le_mono_r; lia).
  lia.
Qed.

Lemma read_entry_ranges (file raw_file_entries : list byte) (offset : Z)
    (entry : Arc.FileEntry) :
  Arc.read_entry file raw_file_entries offset = Ok entry ->
  (exists path_length,
      0 <= path_length < 256 /\
      Arc.decode_ascii (Arc.read_at file (Arc.path_offset entry) path_length)
      = Ok (Arc.path entry)) /\
  (String.length (Arc.path entry) <= 255)%nat /\
  0 <= Arc.unknown1 entry < 256 /\
  0 <= Arc.unknown2 entry < 65536 /\
  0 <= Arc.unknown3 entry < 4294967296 /\
  0 <= Arc.file_length entry < 4294967296 /\
  0 <= Arc.path_offset entry < 4294967296 /\
  0 <= Arc.file_offset entry < 4294967296.
Proof.
  unfold Arc.read_entry.
  set (chunk := slice raw_file_entries offset (offset + 20)).
  destruct (Nat.eqb (List.length chunk) 20); [|discriminate].
  destruct (Arc.decode_ascii _) as [p|] eqn:Hp; cbn [bind]; [|discriminate].
  intros Hentry.
  assert (Hrec : entry = Arc.mkFileEntry p (le_uint (firstn 1 chunk))
                           (le_uint (firstn 2 (skipn 2 chunk)))
                           (le_uint (firstn 4 (skipn 4 chunk)))
                           (le_uint (firstn 4 (skipn 8 chunk)))
                           (le_uint (firstn 4 (skipn 12 chunk)))
                           (le_uint (firstn 4 (skipn 16 chunk))))
    by congruence.
  rewrite Hrec.
  unfold Arc.path, Arc.unknown1, Arc.unknown2, Arc.unknown3, Arc.file_length,
    Arc.path_offset, Arc.file_offset.
  pose proof (le_uint_firstn_bound 1 (skipn 1 chunk)) as Hpl.
  change (256 ^ Z.of_nat 1) with 256 in Hpl.
  split; [|split].
  - exists (le_uint (firstn 1 (skipn 1 chunk))). split; [exact Hpl|exact Hp].
  - rewrite (decode_ascii_length _ _ Hp).
    pose proof (read_at_length file (le_uint (firstn 4 (skipn 12 chunk)))
                  (le_uint (firstn 1 (skipn 1 chunk)))).
    lia.
  - split; [apply (le_uint_firstn_bound 1)|].
    split; [apply (le_uint_firstn_bound 2)|].
    repeat split; apply (le_uint_firstn_bound 4).
Qed.

(** X16.  Each entry of an accepted archive has the path of at most 255
    characters that the ASCII bytes at its [path_offset] spell, and numbers
    of the widths of its record: one byte, two bytes, four bytes. *)
Theorem arc_entries_are_read_from_the_file (file : list byte) (self : Arc.Arc)
    (entry : Arc.FileEntry) :
  Arc.__init__ file = Arc.Got self ->
  In entry (Arc.file_entries self) ->
  (exists path_length,
      0 <= path_length < 256 /\
      Arc.decode_ascii (Arc.read_at file (Arc.path_offset entry) path_length)
      = Ok (Arc.path entry)) /\
  (String.length (Arc.path entry) <= 255)%nat /\
  0 <= Arc.unknown1 entry < 256 /\
  0 <= Arc.unknown2 entry < 65536 /\
  0 <= Arc.unknown3 entry < 4294967296 /\
  0 <= Arc.file_length entry < 4294967296 /\
  0 <= Arc.path_offset entry < 4294967296 /\
  0 <= Arc.file_offset entry < 4294967296.
Proof.
  unfold Arc.__init__.
  destruct (negb (bytes_eqb (firstn 4 file) Arc.MAGIC)); [discriminate|].
  destruct (List.length file <? 20)%nat; [discriminate|].
  destruct (negb _); [discriminate|].
  destruct (mapM _ _) as [entries|] eqn:Hm; [|discriminate].
  intros Hself Hin.
  assert (Hentries : Arc.file_entries self = entries).
  { assert (H : Arc.Got (A := Arc.Arc) self = Arc.Got self) by reflexivity.
    rewrite <- Hself in H at 1. now injection H as <-. }
  rewrite Hentries in Hin.
  destruct (proj2 (mapM_ok_in _ _ _ Hm) _ Hin) as (offset & _ & Hentry).
  exact (read_entry_ranges _ _ _ _ Hentry).
Qed.

Lemma arc_entries_are_read_from_the_file_witness :
  (String.length (Arc.path archive_entry) <= 255)%nat.
Proof.
  apply (arc_entries_are_read_from_the_file archive
           (Arc.mkArc archive 28 0 0 [archive_entry]) archive_entry);
    [run | left; reflexivity].
Defined.

Lemma mapM_raises {A B} (f : A -> result B) (l : list A) :
  forall e, mapM f l = Raise e -> exists a, In a l /\ f a = Raise e.
Proof.
  induction l as [|a l IH]; intros e H; simpl in H; [discriminate|].
  destruct (f a) as [b|e1] eqn:Hb; simpl in H.
  - destruct (mapM f l) as [bs|e2] eqn:Hl; simpl in H; [discriminate|].
    injection H as <-. destruct (IH _ eq_refl) as (a' & Hin & Hf).
    exists a'. split; [now right|assumption].
  - injection H as <-. exists a. split; [now left|assumption].
Qed.

Lemma decode_ascii_raises (bs : list byte) :
  forall e, Arc.decode_ascii bs = Raise e -> e = UnicodeDecodeError.
Proof.
  induction bs as [|b bs IH]; intros e H; simpl in H; [discriminate|].
  destruct (byte_val b <? 128); [|now injection H as <-].
  destruct (Arc.decode_ascii bs) as [s|e1]; simpl in H; [discriminate|].
  injection H as <-. now apply IH.
Qed.

(** X17.  How [Arc.__init__] fails.  'File is too small.' is the error of
    a file that begins with the magic and has fewer than 0x14 bytes;
    'Invalid file.' that of a file that does not begin with the magic, also
    when it is shorter than the magic, or whose length is not
    [0x14 + data_length].  The remaining failures are struct.error, on an
    entry table that ends inside an entry, and UnicodeDecodeError, on a path
    that is not ASCII. *)
Theorem arc_rejections (file : list byte) :
  (Arc.__init__ file = Arc.Fail (Arc.InvalidFileError "File is too small.")
   <-> firstn 4 file = Arc.MAGIC /\ (List.length file < 20)%nat) /\
  (Arc.__init__ file = Arc.Fail (Arc.InvalidFileError "Invalid file.")
   <-> firstn 4 file <> Arc.MAGIC \/
       ((20 <= List.length file)%nat /\
        20 + le_uint (firstn 4 (skipn 4 file)) <> Z.of_nat (List.length file))) /\
  (forall e,
      Arc.__init__ file = Arc.Fail e ->
      e = Arc.InvalidFileError "File is too small." \/
      e = Arc.InvalidFileError "Invalid file." \/
      e = Arc.Error StructError \/ e = Arc.Error UnicodeDecodeError).
Proof.
  unfold Arc.__init__.
  set (header := firstn 16 (skipn 4 file)).
  assert (Hdl : le_uint (firstn 4 header) = le_uint (firstn 4 (skipn 4 file)))
    by (unfold header; now rewrite firstn_firstn).
  rewrite <- Hdl.
  destruct (bytes_eqb (firstn 4 file) Arc.MAGIC) eqn:Emagic; cbn [negb].
  - apply bytes_eqb_eq in Emagic.
    destruct (List.length file <? 20)%nat eqn:Esize.
    + apply Nat.ltb_lt in Esize. split; [|split].
      * split; [now intros _|reflexivity].
      * split; [discriminate|]. intros [H|[H _]]; [contradiction|lia].
      * intros e [= <-]. now left.
    + apply Nat.ltb_ge in Esize.
      destruct (20 + le_uint (firstn 4 header) =? Z.of_nat (List.length file)) eqn:Elen;
        cbn [negb].
      * apply Z.eqb_eq in Elen.
        destruct (mapM _ _) as [entries|e1] eqn:Hm.
        -- split; [|split].
           ++ split; [discriminate|]. intros [_ H]. lia.
           ++ split; [discriminate|]. intros [H|[_ H]]; [contradiction|lia].
           ++ discriminate.
        -- split; [|split].
           ++ split; [discriminate|]. intros [_ H]. lia.
           ++ split; [discriminate|]. intros [H|[_ H]]; [contradiction|lia].
           ++ intros e [= <-]. right. right.
              destruct (mapM_raises _ _ _ Hm) as (offset & _ & Hentry).
              unfold Arc.read_entry in Hentry.
              destruct (Nat.eqb _ 20); [|injection Hentry as <-; now left].
              destruct (Arc.decode_ascii _) as [p|e2] eqn:Hp; cbn [bind] in Hentry;
                [discriminate|].
              injection Hentry as <-. right. f_equal.
              now apply decode_ascii_raises in Hp.
      * apply Z.eqb_neq in Elen. split; [|split].
        -- split; [discriminate|]. intros [_ H]. lia.
        -- split; [|reflexivity]. intros _. right. split; [lia|exact Elen].
        -- intros e [= <-]. right. now left.
  - apply bytes_eqb_neq in Emagic. split; [|split].
    + split; [discriminate|]. intros [H _]. contradiction.
    + split; [|reflexivity]. intros _. now left.
    + intros e [= <-]. right. now left.
Qed.

Lemma arc_rejections_witness :
  Arc.__init__ [x52; x20; x0d; x43] = Arc.Fail (Arc.InvalidFileError "File is too small.") /\
  Arc.__init__ [x52] = Arc.Fail (Arc.InvalidFileError "Invalid file.").
Proof.
  split.
  - apply (proj1 (arc_rejections [x52; x20; x0d; x43])). split; [reflexivity|].
    simpl. lia.
  - apply (proj1 (proj2 (arc_rejections [x52]))). left. discriminate.
Defined.

(** X18.  [getdata] and [getfilepath] take an index from the front or,
    negative, from the back, and raise IndexError outside
    [-file_count, file_count).  The data are the bytes of the archive from
    the entry's [file_offset] on: at most [file_length] of them, and exactly
    [file_length] when that range ends inside the archive. *)
Theorem getdata_reads_the_entry_range (self : Arc.Arc) (i : nat)
    (entry : Arc.FileEntry) :
  nth_error (Arc.file_entries self) i = Some entry ->
  let data := Arc.read_at (Arc.file self) (Arc.file_offset entry)
                          (Arc.file_length entry) in
  Arc.getdata self (Z.of_nat i) = Arc.Got data /\
  Arc.getdata self (Z.of_nat i - Z.of_nat (Arc.file_count self)) = Arc.Got data /\
  Arc.getfilepath self (Z.of_nat i) = Arc.Got (Arc.path entry) /\
  Z.of_nat (List.length data) <= Z.max 0 (Arc.file_length entry) /\
  (0 <= Arc.file_offset entry -> 0 <= Arc.file_length entry ->
   Arc.file_offset entry + Arc.file_length entry
     <= Z.of_nat (List.length (Arc.file self)) ->
   Z.of_nat (List.length data) = Arc.file_length entry) /\
  (forall z,
      z < - Z.of_nat (Arc.file_count self) \/ Z.of_nat (Arc.file_count self) <= z ->
      Arc.getdata self z = Arc.Fail Arc.IndexError /\
      Arc.getfilepath self z = Arc.Fail Arc.IndexError).
Proof.
  intros Hnth data.
  assert (Hi : (i < Arc.file_count self)%nat).
  { unfold Arc.file_count. apply nth_error_Some. congruence. }
  assert (Hfront : Arc.entry_at self (Z.of_nat i) = Arc.Got entry).
  { unfold Arc.entry_at.
    destruct (Z.of_nat i <? 0) eqn:E0; [apply Z.ltb_lt in E0; lia|].
    rewrite E0. cbn [orb].
    destruct (Z.of_nat (Arc.file_count self) <=? Z.of_nat i) eqn:E1;
      [apply Z.leb_le in E1; lia|].
    now rewrite Nat2Z.id, Hnth. }
  assert (Hback : Arc.entry_at self (Z.of_nat i - Z.of_nat (Arc.file_count self))
                  = Arc.Got entry).
  { unfold Arc.entry_at.
    destruct (Z.of_nat i - Z.of_nat (Arc.file_count self) <? 0) eqn:E0;
      [|apply Z.ltb_ge in E0; lia].
    replace (Z.of_nat i - Z.of_nat (Arc.file_count self) + Z.of_nat (Arc.file_count self))
      with (Z.of_nat i) by lia.
    destruct (Z.of_nat i <? 0) eqn:E2; [apply Z.ltb_lt in E2; lia|]. cbn [orb].
    destruct (Z.of_nat (Arc.file_count self) <=? Z.of_nat i) eqn:E1;
      [apply Z.leb_le in E1; lia|].
    now rewrite Nat2Z.id, Hnth. }
  unfold Arc.getdata, Arc.getfilepath. rewrite Hfront, Hback.
  split; [reflexivity|]. split; [reflexivity|]. split; [reflexivity|].
  split; [apply read_at_length|]. split.
  - intros Ho Hl Hin. unfold data, Arc.read_at.
    rewrite length_firstn, length_skipn. lia.
  - intros z Hz.
    assert (Hout : Arc.entry_at self z = Arc.Fail Arc.IndexError).
    { unfold Arc.entry_at.
      destruct (z <? 0) eqn:E0.
      - apply Z.ltb_lt in E0.
        destruct (z + Z.of_nat (Arc.file_count self) <? 0) eqn:E1; [reflexivity|].
        apply Z.ltb_ge in E1. lia.
      - apply Z.ltb_ge in E0. rewrite (proj2 (Z.ltb_ge z 0) E0). cbn [orb].
        destruct (Z.of_nat (Arc.file_count self) <=? z) eqn:E1; [reflexivity|].
        apply Z.leb_gt in E1. lia. }
    now rewrite Hout.
Qed.

Lemma getdata_reads_the_entry_range_witness :
  Arc.getdata (Arc.mkArc archive 28 0 0 [archive_entry]) 0
  = Arc.Got [xaa; xbb; xcc; xdd].
Proof.
  apply (getdata_reads_the_entry_range (Arc.mkArc archive 28 0 0 [archive_entry])
           0 archive_entry eq_refl).
Defined.

(** ** newrowclass: the layout and its field names *)





